(** * Scale Army job alert bot: the reconciliation run of [main.py]

    One run of the script is: load the snapshot of seen ids, fetch every
    board, diff, write the snapshot, then send one Telegram message per new
    id.  The development below embeds [main.py] function by function and
    proves the ordering, first-run, empty-fetch, diff and namespacing
    properties of the run.

    Conventions.
    - A Python [str] is a Rocq [string] holding its UTF-8 bytes; comparing
      such strings byte by byte is comparing the [str]s code point by code
      point, which is what [sorted] does.
    - A decoded JSON document is a [json] tree.  Floating-point numbers are
      left out: they have no exact model here, and no document with one is
      considered.
    - What the script reads from outside (environment, snapshot file, HTTP
      answers, disk and Telegram behaviour) is gathered in a [world]; what it
      does to the outside is a list of [event]s and the final file system.
    - The set-up done when the module is loaded (the [.env] file, the logging
      handlers) is not part of a run; a log line is an event. *)

From Stdlib Require Import ZArith NArith List Ascii String Sorted Permutation Lia.
From stdpp Require Import base option list strings pretty gmap sets sorting.

#[local] Set Warnings "-register-all".
Open Scope string_scope.
Open Scope Z_scope.

(** ** Python values *)

Module Py.

(** A decoded JSON value; an object keeps its bindings in document order with
    distinct keys, as the [dict] made by [json] does. *)
Inductive json : Type :=
  | JNull : json
  | JBool (b : bool) : json
  | JInt (z : Z) : json
  | JStr (s : string) : json
  | JArr (l : list json) : json
  | JObj (kvs : list (string * json)) : json.

(** The exception classes the script can meet. *)
Inductive exn : Type :=
  | Timeout             (* requests.exceptions.Timeout *)
  | HTTPError (status : Z)  (* requests.exceptions.HTTPError *)
  | RequestException    (* any other requests.exceptions.RequestException *)
  | JSONDecodeError     (* a ValueError *)
  | UnicodeDecodeError  (* a ValueError too, but not a JSONDecodeError *)
  | OSError             (* IOError is an alias of OSError *)
  | AttributeError
  | TypeError
  | KeyError
  | SystemExit.

Inductive result (A : Type) : Type :=
  | Ok (a : A)
  | Raise (e : exn).
Arguments Ok {A} a.
Arguments Raise {A} e.

(** [bool(v)]. *)
Definition truthy (v : json) : bool :=
  match v with
  | JNull => false
  | JBool b => b
  | JInt z => negb (z =? 0)
  | JStr s => negb (String.eqb s "")
  | JArr l => match l with [] => false | _ => true end
  | JObj kvs => match kvs with [] => false | _ => true end
  end.

(** [d.get(k)] on a dict: [None] when the key is missing. *)
Fixpoint dict_get (kvs : list (string * json)) (k : string) : option json :=
  match kvs with
  | [] => None
  | (k', v) :: rest => if String.eqb k' k then Some v else dict_get rest k
  end.

(** [d.get(k, dflt)]: the default only replaces a missing key, a key bound to
    [null] yields [None]. *)
Definition dict_get_or (kvs : list (string * json)) (k : string) (dflt : json) : json :=
  default dflt (dict_get kvs k).

(** [x.get(k, dflt)] on an arbitrary value: only a dict has [get]. *)
Definition get_or (x : json) (k : string) (dflt : json) : result json :=
  match x with
  | JObj kvs => Ok (dict_get_or kvs k dflt)
  | _ => Raise AttributeError
  end.

(** [isinstance(v, dict)], and the bindings of a dict. *)
Definition is_dict (v : json) : bool :=
  match v with JObj _ => true | _ => false end.

Definition as_dict (v : json) : option (list (string * json)) :=
  match v with JObj kvs => Some kvs | _ => None end.

(** The continuation bytes of UTF-8 are 10xxxxxx. *)
Definition is_continuation (c : ascii) : bool :=
  let n := N_of_ascii c in ((128 <=? n) && (n <? 192))%N.

(** The characters of a [str], each as a one-character [str]: a lead byte
    with the continuation bytes that follow it. *)
Fixpoint chars_go (cur : string) (s : string) : list string :=
  match s with
  | EmptyString => [String.rev cur]
  | String c s' =>
      if is_continuation c then chars_go (String c cur) s'
      else String.rev cur :: chars_go (String c EmptyString) s'
  end.

Definition chars (s : string) : list string :=
  match s with
  | EmptyString => []
  | String c s' => chars_go (String c EmptyString) s'
  end.

(** [iter(v)]: a list yields its items, a dict its keys, a str its
    characters; nothing else is iterable. *)
Definition iterate (v : json) : result (list json) :=
  match v with
  | JArr l => Ok l
  | JObj kvs => Ok (map (fun kv => JStr (fst kv)) kvs)
  | JStr s => Ok (map JStr (chars s))
  | _ => Raise TypeError
  end.

(** [s[:n]] on a str. *)
Definition str_take (n : nat) (s : string) : string :=
  fold_right String.append "" (take n (chars s)).

(** [s.replace(c, "\\" + c)] for a single character [c]. *)
Fixpoint escape_char (c : ascii) (s : string) : string :=
  match s with
  | EmptyString => EmptyString
  | String a s' =>
      if Ascii.eqb a c then String "\" (String a (escape_char c s'))
      else String a (escape_char c s')
  end.

(** *** Members of a set

    Only hashable values enter a [set].  [True] and [1] (and [False] and [0])
    are one and the same member, which is why a bool is kept as its number. *)
Inductive atom : Type :=
  | ANone : atom
  | ANum (z : Z) : atom
  | AStr (s : string) : atom.

Definition to_atom (v : json) : option atom :=
  match v with
  | JNull => Some ANone
  | JBool b => Some (ANum (Z.b2z b))
  | JInt z => Some (ANum z)
  | JStr s => Some (AStr s)
  | JArr _ | JObj _ => None
  end.

Definition atom_to_sum (a : atom) : unit + (Z + string) :=
  match a with
  | ANone => inl tt
  | ANum z => inr (inl z)
  | AStr s => inr (inr s)
  end.

Definition atom_of_sum (x : unit + (Z + string)) : atom :=
  match x with
  | inl _ => ANone
  | inr (inl z) => ANum z
  | inr (inr s) => AStr s
  end.

#[global] Instance atom_eq_dec : EqDecision atom.
Proof. solve_decision. Defined.

#[global] Instance atom_countable : Countable atom.
Proof.
  apply (inj_countable' atom_to_sum atom_of_sum).
  intros a. destruct a; reflexivity.
Defined.

(** [set(v)]: TypeError when [v] is not iterable or holds an unhashable
    item. *)
Definition set_of (v : json) : result (gset atom) :=
  match iterate v with
  | Raise e => Raise e
  | Ok items =>
      match mapM to_atom items with
      | Some atoms => Ok (list_to_set atoms)
      | None => Raise TypeError
      end
  end.

Definition as_str (a : atom) : option string :=
  match a with AStr s => Some s | _ => None end.

Definition as_num (a : atom) : option Z :=
  match a with ANum z => Some z | _ => None end.

(** [sorted(l)] for the items of a set: strs sort among themselves by code
    point, numbers among themselves by value; a single item needs no
    comparison; any other mix has two items that [<] cannot compare. *)
Definition sorted (l : list atom) : result (list atom) :=
  match mapM as_str l with
  | Some strs => Ok (AStr <$> merge_sort String.le strs)
  | None =>
      match mapM as_num l with
      | Some nums => Ok (ANum <$> merge_sort Z.le nums)
      | None => match l with [_] => Ok l | _ => Raise TypeError end
      end
  end.

End Py.

(** ** The [json] encoder, as [json.dump(data, f, indent=2)] uses it *)

Module Json.
Import Py.

Definition LF : string := String (ascii_of_nat 10) EmptyString.
Definition DQUOTE : string := String (ascii_of_nat 34) EmptyString.

(** The code point of one character, from its UTF-8 bytes. *)
Definition lead_bits (n : N) : N :=
  if (n <? 128)%N then n
  else if (n <? 224)%N then N.land n 31
  else if (n <? 240)%N then N.land n 15
  else N.land n 7.

Fixpoint cont_bits (acc : N) (s : string) : N :=
  match s with
  | EmptyString => acc
  | String c s' => cont_bits (N.lor (N.shiftl acc 6) (N.land (N_of_ascii c) 63)) s'
  end.

Definition code_point (ch : string) : N :=
  match ch with
  | EmptyString => 0%N
  | String c rest => cont_bits (lead_bits (N_of_ascii c)) rest
  end.

Definition hex_digit (d : N) : ascii :=
  if (d <? 10)%N then ascii_of_N (48 + d) else ascii_of_N (87 + d).

(** [format(n, "04x")]. *)
Definition hex4 (n : N) : string :=
  String (hex_digit (N.land (N.shiftr n 12) 15))
    (String (hex_digit (N.land (N.shiftr n 8) 15))
      (String (hex_digit (N.land (N.shiftr n 4) 15))
        (String (hex_digit (N.land n 15)) EmptyString))).

(** One character of a str inside a JSON string, with [ensure_ascii]. *)
Definition encode_char (ch : string) : string :=
  let cp := code_point ch in
  if (cp =? 34)%N then "\" +:+ DQUOTE
  else if (cp =? 92)%N then "\\"
  else if (cp =? 10)%N then "\n"
  else if (cp =? 13)%N then "\r"
  else if (cp =? 9)%N then "\t"
  else if (cp =? 8)%N then "\b"
  else if (cp =? 12)%N then "\f"
  else if ((32 <=? cp) && (cp <=? 126))%N then ch
  else if (cp <? 65536)%N then "\u" +:+ hex4 cp
  else
    let v := (cp - 65536)%N in
    "\u" +:+ hex4 (N.lor 55296 (N.shiftr v 10)) +:+
    "\u" +:+ hex4 (N.lor 56320 (N.land v 1023)).

Definition encode_str (s : string) : string :=
  DQUOTE +:+ fold_right String.append "" (map encode_char (chars s)) +:+ DQUOTE.

(** A number is written in decimal and [None] as [null].  (Whether a number
    that entered the set as a bool is written back as [true] is not kept; the
    script only ever writes strs, see [updated_ids_current].) *)
Definition encode_atom (a : atom) : string :=
  match a with
  | ANone => "null"
  | ANum z => pretty z
  | AStr s => encode_str s
  end.

Fixpoint join (sep : string) (l : list string) : string :=
  match l with
  | [] => ""
  | [x] => x
  | x :: rest => x +:+ sep +:+ join sep rest
  end.

(** The text of [{"ids": items}] with [indent=2]. *)
Definition dumps_ids (items : list atom) : string :=
  match items with
  | [] => "{" +:+ LF +:+ "  " +:+ DQUOTE +:+ "ids" +:+ DQUOTE +:+ ": []" +:+ LF +:+ "}"
  | _ =>
      "{" +:+ LF +:+ "  " +:+ DQUOTE +:+ "ids" +:+ DQUOTE +:+ ": [" +:+ LF +:+ "    "
      +:+ join ("," +:+ LF +:+ "    ") (map encode_atom items)
      +:+ LF +:+ "  ]" +:+ LF +:+ "}"
  end.

End Json.

Import Py.

(** ** The outside world *)

(** What [requests.get(url, timeout=15)] does: it times out, fails in another
    way (connection refused, DNS, ...), or brings a response whose body
    either is a JSON document or is not ([None]). *)
Inductive get_outcome : Type :=
  | GetTimeout
  | GetFails
  | Response (status : Z) (body : option json).

(** What writing a file does: it works, [open] fails, or the write fails
    after [n] bytes reached the file. *)
Inductive write_fault : Type :=
  | WriteOk
  | OpenFails
  | WriteFails (n : nat).

(** Library functions the script calls and that are taken as given:
    [repr] is Python's [repr] (used on lists and dicts that land in an
    f-string), [loads] is [json.loads] on the bytes of a file, raising
    [UnicodeDecodeError] or [JSONDecodeError]. *)
Record pylib : Type := PyLib {
  repr : json -> string;
  loads : string -> result json;
}.

Record world : Type := World {
  env_token : string;                 (* TELEGRAM_BOT_TOKEN *)
  env_chat_id : string;               (* TELEGRAM_CHAT_ID *)
  fs0 : gmap string string;           (* files at the start: path to bytes *)
  readable : string -> bool;          (* can the path be opened for reading *)
  disk : string -> write_fault;       (* what writing the path does *)
  http_get : string -> get_outcome;   (* the answer of each board url *)
  http_post : nat -> bool;            (* does the n-th POST of the run succeed *)
}.

(** ** Config *)

Record board : Type := Board { name : string; url : string }.

Definition BOARDS : list board :=
  [ {| name := "Scale Army Careers";
       url := "https://api.ashbyhq.com/posting-api/job-board/Scale%20Army%20Careers" |} ].

Definition JOBS_FILE : string := "jobs.json".

(** ** What a run does: events *)

Inductive level : Type := INFO | WARNING | ERROR.

(** The log lines of the script, one constructor per [logging] call. *)
Inductive log_msg : Type :=
  | LogStarting
  | LogFetching (board_name : string)
  | LogTimedOut (board_name : string)
  | LogHttpError (board_name : string) (status : Z)
  | LogNetworkError (board_name : string)
  | LogParseError (board_name : string)
  | LogCouldNotRead (filepath : string)
  | LogSaveFailed (filepath : string)
  | LogSendRetry
  | LogSendDropped
  | LogNoJobs
  | LogFirstRun (jobs platforms : nat)
  | LogRemoved (jobs : nat)
  | LogNewFound (jobs : nat)
  | LogNotified (platform : string) (title : json) (job_id : string)
  | LogNoNew
  | LogRunComplete.

Inductive event : Type :=
  | EvLog (lvl : level) (m : log_msg)
  | EvGet (url : string)                              (* requests.get *)
  | EvOpenWrite (path : string) (ok : bool)           (* open(path, "w"), truncating *)
  | EvWrite (path : string) (bytes : string) (ok : bool)  (* bytes that reached the file *)
  | EvPost (attempt : nat) (url chat_id text : string) (ok : bool)  (* requests.post *)
  | EvSleep (seconds : nat).

(** ** Effects: a state, a trace and exceptions *)

Record state : Type := State {
  files : gmap string string;   (* the file system *)
  posted : nat;                 (* POSTs made so far *)
}.

Record run (A : Type) : Type := Run {
  trace : list event;
  final : state;
  outcome : result A;
}.
Arguments Run {A} trace final outcome.
Arguments trace {A} r.
Arguments final {A} r.
Arguments outcome {A} r.

Definition M (A : Type) : Type := state -> run A.

#[global] Instance M_ret : MRet M := fun A a s => Run [] s (Ok a).

#[global] Instance M_bind : MBind M := fun A B f m s =>
  let r := m s in
  match outcome r with
  | Ok a => let r' := f a (final r) in
            Run (trace r ++ trace r') (final r') (outcome r')
  | Raise e => Run (trace r) (final r) (Raise e)
  end.

Definition raise {A} (e : exn) : M A := fun s => Run [] s (Raise e).

Definition lift {A} (r : result A) : M A :=
  match r with Ok a => mret a | Raise e => raise e end.

(** [try: body except ...: handler]; the handler re-raises what its clauses
    do not match. *)
Definition try {A} (body : M A) (handler : exn -> M A) : M A := fun s =>
  let r := body s in
  match outcome r with
  | Ok a => r
  | Raise e => let r' := handler e (final r) in
               Run (trace r ++ trace r') (final r') (outcome r')
  end.

Definition emit (ev : event) : M unit := fun s => Run [ev] s (Ok tt).

Definition log (lvl : level) (m : log_msg) : M unit := emit (EvLog lvl m).

Definition get_files : M (gmap string string) := fun s => Run [] s (Ok (files s)).

Definition set_file (path bytes : string) : M unit := fun s =>
  Run [] (State (<[path := bytes]> (files s)) (posted s)) (Ok tt).

(** The outcome of the next POST; counts it. *)
Definition next_post (w : world) : M bool := fun s =>
  Run [] (State (files s) (S (posted s))) (Ok (http_post w (posted s))).

(** [for x in l: body(x)]. *)
Fixpoint for_each {A} (l : list A) (body : A -> M unit) : M unit :=
  match l with
  | [] => mret tt
  | x :: rest => body x ;; for_each rest body
  end.

(** A list comprehension whose element expression may raise. *)
Fixpoint traverse {A B} (f : A -> result B) (l : list A) : result (list B) :=
  match l with
  | [] => Ok []
  | x :: rest =>
      match f x with
      | Raise e => Raise e
      | Ok y => match traverse f rest with
                | Raise e => Raise e
                | Ok ys => Ok (y :: ys)
                end
      end
  end.

(** ** The script *)

(** A normalised job: the dict [normalise_job] returns.  [id] and [platform]
    are strs by construction; the other fields hold whatever the feed sent. *)
Record job : Type := Job {
  id : string;
  platform : string;
  title : json;
  department : json;
  team : json;
  location : json;
  is_remote : json;
  employment_type : json;
  published_at : json;
  job_url : json;
  apply_url : json;
}.

Section Script.

Variable lib : pylib.
Variable w : world.

(** [f"{v}"]: [str(v)]. *)
Definition py_str (v : json) : string :=
  match v with
  | JStr s => s
  | JInt z => pretty z
  | JBool true => "True"
  | JBool false => "False"
  | JNull => "None"
  | JArr _ | JObj _ => repr lib v
  end.

(** *** Ashby API *)

Definition employment_type_map : list (string * string) :=
  [ ("FullTime", "Full-Time"); ("PartTime", "Part-Time");
    ("Contract", "Contract"); ("Intern", "Internship") ].

Fixpoint assoc (k : string) (m : list (string * string)) : option string :=
  match m with
  | [] => None
  | (k', v) :: rest => if String.eqb k' k then Some v else assoc k rest
  end.

(** [employment_type_map.get(raw_type, raw_type)]: looking up a list or a
    dict raises TypeError (unhashable). *)
Definition map_employment_type (raw_type : json) : result json :=
  match raw_type with
  | JStr s => Ok (match assoc s employment_type_map with
                  | Some t => JStr t
                  | None => raw_type
                  end)
  | JArr _ | JObj _ => Raise TypeError
  | _ => Ok raw_type
  end.

(** [raw.get("id") or f"{raw.get('title', '')}_{raw.get('publishedAt', '')}"]. *)
Definition local_id (raw : list (string * json)) : json :=
  let got := default JNull (dict_get raw "id") in
  if truthy got then got
  else JStr (py_str (dict_get_or raw "title" (JStr "")) +:+ "_" +:+
             py_str (dict_get_or raw "publishedAt" (JStr ""))).

Definition normalise_job (raw : list (string * json)) (platform_name : string) : result job :=
  let raw_type := dict_get_or raw "employmentType" (JStr "") in
  let job_id := local_id raw in
  let internal_id := platform_name +:+ ":" +:+ py_str job_id in
  match map_employment_type raw_type with
  | Raise e => Raise e
  | Ok emp =>
      Ok {| id := internal_id;
            platform := platform_name;
            title := dict_get_or raw "title" (JStr "Untitled Role");
            department := dict_get_or raw "department" (JStr "Unknown");
            team := dict_get_or raw "team" (JStr "");
            location := dict_get_or raw "location" (JStr "Unknown");
            is_remote := dict_get_or raw "isRemote" (JBool false);
            employment_type := emp;
            published_at := dict_get_or raw "publishedAt" (JStr "");
            job_url := dict_get_or raw "jobUrl" (JStr "");
            apply_url := dict_get_or raw "applyUrl" (JStr "") |}
  end.

(** [requests.get(url, timeout=15)]. *)
Definition requests_get (u : string) : M (Z * option json) :=
  emit (EvGet u) ;;
  match http_get w u with
  | GetTimeout => raise Timeout
  | GetFails => raise RequestException
  | Response status body => mret (status, body)
  end.

(** [response.raise_for_status()]: 4xx and 5xx raise. *)
Definition raise_for_status (status : Z) : M unit :=
  if (400 <=? status) && (status <? 600) then raise (HTTPError status) else mret tt.

(** [response.json()]: a body that is not JSON raises a JSONDecodeError.
    (In recent versions of requests that error is a RequestException as
    well and the clause before logs it; [fetch_jobs] returns [[]] either
    way.) *)
Definition response_json (body : option json) : M json :=
  match body with
  | Some data => mret data
  | None => raise JSONDecodeError
  end.

Definition fetch_jobs (b : board) : M (list job) :=
  let u := url b in
  let nm := name b in
  try
    ( '(status, body) ← requests_get u ;
      raise_for_status status ;;
      data ← response_json body ;
      raw_jobs ← lift (get_or data "jobs" (JArr [])) ;
      items ← lift (iterate raw_jobs) ;
      lift (traverse (fun raw => normalise_job raw nm) (omap as_dict items)) )
    (fun e =>
       match e with
       | Timeout => log ERROR (LogTimedOut nm) ;; mret []
       | HTTPError status => log ERROR (LogHttpError nm status) ;; mret []
       | RequestException => log ERROR (LogNetworkError nm) ;; mret []
       | JSONDecodeError | UnicodeDecodeError | KeyError =>
           log ERROR (LogParseError nm) ;; mret []
       | _ => raise e
       end).

(** *** State persistence *)

(** [open(filepath, "r", encoding="utf-8")] and [json.load(f)]. *)
Definition read_json (filepath bytes : string) : M json :=
  if readable w filepath then lift (loads lib bytes) else raise OSError.

Definition load_seen_ids (filepath : string) : M (gset atom * bool) :=
  fs ← get_files ;
  match fs !! filepath with
  | None => mret (∅, true)
  | Some bytes =>
      try
        ( data ← read_json filepath bytes ;
          ids ← lift (get_or data "ids" (JArr [])) ;
          seen ← lift (set_of ids) ;
          mret (seen, false) )
        (fun e =>
           match e with
           | JSONDecodeError | OSError =>
               log WARNING (LogCouldNotRead filepath) ;; mret (∅, false)
           | _ => raise e
           end)
  end.

(** [open(filepath, "w")] truncates the file; [json.dump] then writes the
    text into it. *)
Definition write_text (filepath text : string) : M unit :=
  match disk w filepath with
  | OpenFails => emit (EvOpenWrite filepath false) ;; raise OSError
  | WriteOk =>
      emit (EvOpenWrite filepath true) ;; set_file filepath "" ;;
      emit (EvWrite filepath text true) ;; set_file filepath text
  | WriteFails n =>
      let written := String.substring 0 n text in
      emit (EvOpenWrite filepath true) ;; set_file filepath "" ;;
      emit (EvWrite filepath written false) ;; set_file filepath written ;;
      raise OSError
  end.

Definition save_seen_ids (ids : gset atom) (filepath : string) : M unit :=
  try
    ( items ← lift (sorted (elements ids)) ;
      write_text filepath (Json.dumps_ids items) )
    (fun e =>
       match e with
       | OSError => log ERROR (LogSaveFailed filepath)
       | _ => raise e
       end).

(** *** Telegram *)

(** The body of [for attempt in range(2)]: the POST of the payload (chat
    id, text, Markdown, no preview) to [url]. *)
Fixpoint send_attempts (attempts : list nat) (u chat_id text : string) : M bool :=
  match attempts with
  | [] => mret false
  | attempt :: rest =>
      ok ← next_post w ;
      emit (EvPost attempt u chat_id text ok) ;;
      if (ok : bool) then mret true
      else if (attempt =? 0)%nat then
        log WARNING LogSendRetry ;; emit (EvSleep 5) ;; send_attempts rest u chat_id text
      else
        log ERROR LogSendDropped ;; mret false
  end.

Definition send_telegram_message (text token chat_id : string) : M bool :=
  let u := "https://api.telegram.org/bot" +:+ token +:+ "/sendMessage" in
  send_attempts (seq 0 2) u chat_id text.

Definition escape_markdown (text : json) : result string :=
  match text with
  | JStr s => Ok (fold_left (fun t c => escape_char c t) ["*"; "_"; "`"; "["]%char s)
  | _ => Raise AttributeError   (* no [replace] on anything but a str *)
  end.

(** [job["published_at"][:10] if job["published_at"] else "Unknown"]: a str
    gives its first ten characters, a list its first ten items; nothing else
    that is truthy can be sliced (a dict raises TypeError, or KeyError from
    Python 3.12 on). *)
Definition pub_date_of (published : json) : result json :=
  if truthy published then
    match published with
    | JStr s => Ok (JStr (str_take 10 s))
    | JArr l => Ok (JArr (take 10 l))
    | _ => Raise TypeError
    end
  else Ok (JStr "Unknown").

Definition format_new_job_message (j : job) : result string :=
  match escape_markdown (JStr (platform j)) with Raise e => Raise e | Ok platform_ =>
  match escape_markdown (title j) with Raise e => Raise e | Ok title_ =>
  match escape_markdown (department j) with Raise e => Raise e | Ok department_ =>
  match escape_markdown (team j) with Raise e => Raise e | Ok team_ =>
  match escape_markdown (location j) with Raise e => Raise e | Ok location_ =>
  match escape_markdown (employment_type j) with Raise e => Raise e | Ok emp_type =>
  let remote_tag := if truthy (is_remote j) then " (Remote)" else "" in
  match pub_date_of (published_at j) with Raise e => Raise e | Ok pub_date =>
  let dept_line :=
    if truthy (JStr team_) then department_ +:+ " › " +:+ team_ else department_ in
  Ok ("🆕 *New Job Alert* on " +:+ platform_ +:+ Json.LF +:+ Json.LF +:+
      "*" +:+ title_ +:+ "*" +:+ Json.LF +:+
      "🏢 " +:+ dept_line +:+ Json.LF +:+
      "📍 " +:+ location_ +:+ remote_tag +:+ Json.LF +:+
      "💼 " +:+ emp_type +:+ Json.LF +:+
      "📅 Published: " +:+ py_str pub_date +:+ Json.LF +:+ Json.LF +:+
      "🔗 [View Job](" +:+ py_str (job_url j) +:+ ")" +:+ Json.LF +:+
      "✅ [Apply Now](" +:+ py_str (apply_url j) +:+ ")")
  end end end end end end end.

(** *** Main *)

(** [for board in BOARDS: ...], with its two accumulators. *)
Fixpoint fetch_boards (boards : list board) (all_jobs : list job)
    (platforms_checked : list string) : M (list job * list string) :=
  match boards with
  | [] => mret (all_jobs, platforms_checked)
  | b :: rest =>
      log INFO (LogFetching (name b)) ;;
      board_jobs ← fetch_jobs b ;
      match board_jobs with
      | [] => fetch_boards rest all_jobs platforms_checked
      | _ => fetch_boards rest (all_jobs ++ board_jobs) (platforms_checked ++ [name b])
      end
  end.

(** [{job["id"] for job in all_jobs}]. *)
Definition ids_of (all_jobs : list job) : gset atom :=
  list_to_set ((fun j => AStr (id j)) <$> all_jobs).

(** [{job["id"]: job for job in all_jobs}]: a later job replaces an earlier
    one with the same id. *)
Definition index_by_id (all_jobs : list job) : gmap string job :=
  foldl (fun m j => <[id j := j]> m) ∅ all_jobs.

Definition new_ids (seen_ids current_ids : gset atom) : gset atom :=
  current_ids ∖ seen_ids.

Definition removed_ids (seen_ids current_ids : gset atom) : gset atom :=
  seen_ids ∖ current_ids.

Definition updated_ids (seen_ids current_ids : gset atom) : gset atom :=
  (seen_ids ∪ new_ids seen_ids current_ids) ∖ removed_ids seen_ids current_ids.

(** The body of [for job_id in sorted(list(new_ids))]. *)
Definition notify (job_by_id : gmap string job) (job_id : atom) : M unit :=
  match job_id with
  | AStr key =>
      match job_by_id !! key with
      | None => raise KeyError
      | Some j =>
          message ← lift (format_new_job_message j) ;
          success ← send_telegram_message message (env_token w) (env_chat_id w) ;
          if (success : bool) then log INFO (LogNotified (platform j) (title j) key)
          else mret tt
      end
  | _ => raise KeyError
  end.

(** [main()], for a list of boards.  The timestamp computed before the
    notifications is never used and has no effect; it is left out. *)
Definition main_on (boards : list board) : M unit :=
  if String.eqb (env_token w) "" || String.eqb (env_chat_id w) "" then raise SystemExit
  else
    log INFO LogStarting ;;
    '(seen_ids, is_first_run) ← load_seen_ids JOBS_FILE ;
    '(all_jobs, platforms_checked) ← fetch_boards boards [] [] ;
    match all_jobs with
    | [] => log WARNING LogNoJobs
    | _ =>
        let current_ids := ids_of all_jobs in
        let job_by_id := index_by_id all_jobs in
        if (is_first_run : bool) then
          save_seen_ids current_ids JOBS_FILE ;;
          log INFO (LogFirstRun (size current_ids) (length platforms_checked))
        else
          let new := new_ids seen_ids current_ids in
          let removed := removed_ids seen_ids current_ids in
          let updated := updated_ids seen_ids current_ids in
          save_seen_ids updated JOBS_FILE ;;
          (if decide (removed = ∅) then mret tt
           else log INFO (LogRemoved (size removed))) ;;
          (if decide (new = ∅) then log INFO LogNoNew
           else
             log INFO (LogNewFound (size new)) ;;
             order ← lift (sorted (elements new)) ;
             for_each order (notify job_by_id)) ;;
          log INFO LogRunComplete
    end.

(** One run of the script on the world [w]. *)
Definition main (boards : list board) : run unit :=
  main_on boards (State (fs0 w) 0).

End Script.

(** ** Reading a trace *)

(** The events that touch the file system or the messaging endpoint. *)
Definition is_post (ev : event) : bool :=
  match ev with EvPost _ _ _ _ _ => true | _ => false end.

Definition is_file_write (ev : event) : bool :=
  match ev with EvOpenWrite _ _ | EvWrite _ _ _ => true | _ => false end.

Definition quiet (ev : event) : Prop :=
  is_post ev = false ∧ is_file_write ev = false.

(** The notifications attempted: the text of each first attempt, in order
    (every call of [send_telegram_message] starts with attempt 0). *)
Definition sends (t : list event) : list string :=
  omap (fun ev => match ev with EvPost O _ _ text _ => Some text | _ => None end) t.

(** The event that ends a call of [save_seen_ids]: the text is written, or
    the failure is logged. *)
Definition save_done (path : string) (ev : event) : Prop :=
  (∃ bytes, ev = EvWrite path bytes true) ∨ ev = EvLog ERROR (LogSaveFailed path).

(** The file system after the events of a trace, were the run to stop
    there. *)
Definition replay_event (fs : gmap string string) (ev : event) : gmap string string :=
  match ev with
  | EvOpenWrite path true => <[path := ""]> fs
  | EvWrite path bytes _ => <[path := bytes]> fs
  | _ => fs
  end.

Definition replay (t : list event) (fs : gmap string string) : gmap string string :=
  foldl replay_event fs t.

(** A computation that leaves the state alone and emits quiet events only. *)
Definition silent {A} (m : M A) : Prop :=
  ∀ s, final (m s) = s ∧ Forall quiet (trace (m s)).

(** ** The two ways [main] ends after a fetch that brought jobs *)

Section Phases.

Variable lib : pylib.
Variable w : world.

(** Step 3 of [main]: the first run. *)
Definition first_run_part (all_jobs : list job) (platforms_checked : list string) : M unit :=
  save_seen_ids w (ids_of all_jobs) JOBS_FILE ;;
  log INFO (LogFirstRun (size (ids_of all_jobs)) (length platforms_checked)).

(** Step 6 of [main]: the alerts. *)
Definition alerts_part (seen_ids : gset atom) (all_jobs : list job) : M unit :=
  if decide (new_ids seen_ids (ids_of all_jobs) = ∅) then log INFO LogNoNew
  else
    log INFO (LogNewFound (size (new_ids seen_ids (ids_of all_jobs)))) ;;
    order ← lift (sorted (elements (new_ids seen_ids (ids_of all_jobs)))) ;
    for_each order (notify lib w (index_by_id all_jobs)).

(** Steps 4 to 6 of [main]: every later run. *)
Definition steady_part (seen_ids : gset atom) (all_jobs : list job) : M unit :=
  save_seen_ids w (updated_ids seen_ids (ids_of all_jobs)) JOBS_FILE ;;
  (if decide (removed_ids seen_ids (ids_of all_jobs) = ∅) then mret tt
   else log INFO (LogRemoved (size (removed_ids seen_ids (ids_of all_jobs))))) ;;
  alerts_part seen_ids all_jobs ;;
  log INFO LogRunComplete.

(** The message sent for the job that [job_by_id] holds under a key. *)
Definition message_of (all_jobs : list job) (key : string) : result string :=
  match index_by_id all_jobs !! key with
  | Some j => format_new_job_message lib j
  | None => Raise KeyError
  end.

End Phases.

(** A board owns an id when the id carries the board's name as its
    namespace and no other configured board's. *)
Definition namespaced (b : board) (key : string) : Prop :=
  ∃ rest, key = name b +:+ ":" +:+ rest.

Definition owned_by (boards : list board) (b : board) (key : string) : Prop :=
  namespaced b key ∧ ∀ c, c ∈ boards → namespaced c key → c = b.

(** A list of set members that are all strs. *)
Definition all_strs (l : list atom) : Prop := ∀ a, a ∈ l → ∃ s, a = AStr s.

(** ** Sample worlds *)

Module Sample.

Definition board_a : board := {| name := "A"; url := "https://a.example/jobs" |}.
Definition board_b : board := {| name := "B"; url := "https://b.example/jobs" |}.

(** A posting of the feed, as the decoded JSON object. *)
Definition posting (local title_ : string) (team_ : json) : json :=
  JObj [ ("id", JStr local); ("title", JStr title_); ("department", JStr "Engineering");
         ("team", team_); ("location", JStr "Lagos"); ("isRemote", JBool true);
         ("employmentType", JStr "FullTime"); ("publishedAt", JStr "2024-05-01T09:00:00Z");
         ("jobUrl", JStr "https://a.example/1"); ("applyUrl", JStr "https://a.example/1/apply") ].

Definition feed (postings : list json) : get_outcome :=
  Response 200 (Some (JObj [("jobs", JArr postings)])).

(** The snapshot texts the samples use, with what [json.loads] makes of
    them; the samples read no other text. *)
Definition snapshot_a1 : string := Json.dumps_ids [AStr "A:1"].
Definition snapshot_a1_b7 : string := Json.dumps_ids [AStr "A:1"; AStr "B:7"].
Definition snapshot_none : string := Json.dumps_ids [].

Definition documents : list (string * json) :=
  [ ("[]", JArr []);
    (snapshot_none, JObj [("ids", JArr [])]);
    (snapshot_a1, JObj [("ids", JArr [JStr "A:1"])]);
    (snapshot_a1_b7, JObj [("ids", JArr [JStr "A:1"; JStr "B:7"])]) ].

(** The samples never format a list or a dict, so [repr] is only given for
    the empty ones. *)
Definition lib : pylib :=
  {| repr := fun v => match v with JObj _ => "{}" | _ => "[]" end;
     loads := fun bytes =>
       match dict_get documents bytes with
       | Some data => Ok data
       | None => Raise JSONDecodeError
       end |}.

Definition world_with (fs : gmap string string) (fault : write_fault)
    (get : string -> get_outcome) : world :=
  {| env_token := "123:token"; env_chat_id := "-100";
     fs0 := fs; readable := fun _ => true; disk := fun _ => fault;
     http_get := get; http_post := fun _ => true |}.

(** No snapshot yet; board A lists two postings. *)
Definition first_world : world :=
  world_with ∅ WriteOk
    (fun _ => feed [posting "2" "Designer" (JStr "Brand"); posting "1" "Engineer" (JStr "")]).

(** Snapshot [A:1]; board A lists postings 3, 1 and 2. *)
Definition steady_world : world :=
  world_with {[ JOBS_FILE := snapshot_a1 ]} WriteOk
    (fun _ => feed [posting "3" "Analyst" (JStr ""); posting "1" "Engineer" (JStr "");
                    posting "2" "Designer" (JStr "Brand")]).

(** Snapshot [A:1]; every request times out. *)
Definition down_world : world :=
  world_with {[ JOBS_FILE := snapshot_a1 ]} WriteOk (fun _ => GetTimeout).

(** Snapshot [A:1, B:7]; board A answers, board B times out. *)
Definition half_down_world : world :=
  world_with {[ JOBS_FILE := snapshot_a1_b7 ]} WriteOk
    (fun u => if String.eqb u (url board_a) then feed [posting "1" "Engineer" (JStr "")]
              else GetTimeout).

(** Empty snapshot; the first of two new postings has [null] for a team. *)
Definition null_team_world : world :=
  world_with {[ JOBS_FILE := snapshot_none ]} WriteOk
    (fun _ => feed [posting "1" "Engineer" JNull; posting "2" "Designer" (JStr "Brand")]).

(** The snapshot file holds [[]], a JSON document that is not an object. *)
Definition list_snapshot_world : world :=
  world_with {[ JOBS_FILE := "[]" ]} WriteOk (fun _ => feed [posting "1" "Engineer" (JStr "")]).

(** The feed answers 200 with the JSON document [[]]. *)
Definition list_feed_world : world :=
  world_with ∅ WriteOk (fun _ => Response 200 (Some (JArr []))).

(** Snapshot [A:1]; the disk fails after five bytes of a write. *)
Definition full_disk_world : world :=
  world_with {[ JOBS_FILE := snapshot_a1 ]} (WriteFails 5)
    (fun _ => feed [posting "1" "Engineer" (JStr ""); posting "2" "Designer" (JStr "Brand")]).

(** A raw record whose id is the number 0. *)
Definition zero_id_record : list (string * json) :=
  [ ("id", JInt 0); ("title", JStr "Engineer"); ("publishedAt", JStr "2024-05-01") ].

Definition start (w : world) : state := State (fs0 w) 0.

(** The jobs a run on [w] fetches from [boards]. *)
Definition fetched (w : world) (boards : list board) : list job :=
  match outcome (fetch_boards lib w boards [] [] (start w)) with
  | Ok (all_jobs, _) => all_jobs
  | Raise _ => []
  end.

Definition steady_run : run unit := main lib steady_world [board_a].

(** The text of the first notification of [steady_run]. *)
Definition first_text : string :=
  match sends (trace steady_run) with
  | text :: _ => text
  | [] => ""
  end.

Definition ids_1_2 : gset atom := {[ AStr "A:1"; AStr "A:2" ]}.

End Sample.

(** * Properties *)

#[local] Open Scope list_scope.

(** ** Running sequences *)

Lemma run_bind {A B} (m : M A) (f : A -> M B) s :
  (m ≫= f) s =
  match outcome (m s) with
  | Ok a => Run (trace (m s) ++ trace (f a (final (m s))))
                (final (f a (final (m s)))) (outcome (f a (final (m s))))
  | Raise e => Run (trace (m s)) (final (m s)) (Raise e)
  end.
Proof. reflexivity. Qed.

Lemma run_try {A} (body : M A) handler s :
  try body handler s =
  match outcome (body s) with
  | Ok a => body s
  | Raise e => Run (trace (body s) ++ trace (handler e (final (body s))))
                   (final (handler e (final (body s))))
                   (outcome (handler e (final (body s))))
  end.
Proof. reflexivity. Qed.

Lemma quiet_log lvl m : quiet (EvLog lvl m).
Proof. split; reflexivity. Qed.

Lemma quiet_get u : quiet (EvGet u).
Proof. split; reflexivity. Qed.

Create HintDb silent.
#[local] Hint Resolve quiet_log quiet_get : silent.

Lemma silent_ret {A} (a : A) : silent (mret a).
Proof. intros s. split; [reflexivity | constructor]. Qed.

Lemma silent_raise {A} e : silent (@raise A e).
Proof. intros s. split; [reflexivity | constructor]. Qed.

Lemma silent_lift {A} (r : result A) : silent (lift r).
Proof. destruct r; [apply silent_ret | apply silent_raise]. Qed.

Lemma silent_emit ev : quiet ev -> silent (emit ev).
Proof. intros Hq s. split; [reflexivity | simpl; constructor; [exact Hq | constructor]]. Qed.

Lemma silent_log lvl m : silent (log lvl m).
Proof. apply silent_emit, quiet_log. Qed.

Lemma silent_bind {A B} (m : M A) (f : A -> M B) :
  silent m -> (forall a, silent (f a)) -> silent (m ≫= f).
Proof.
  intros Hm Hf s. rewrite run_bind.
  destruct (Hm s) as [Hs Ht].
  destruct (outcome (m s)) as [a|e]; simpl.
  - destruct (Hf a (final (m s))) as [Hs' Ht'].
    split; [congruence | apply Forall_app; auto].
  - auto.
Qed.

Lemma silent_try {A} (body : M A) handler :
  silent body -> (forall e, silent (handler e)) -> silent (try body handler).
Proof.
  intros Hm Hh s. rewrite run_try.
  destruct (Hm s) as [Hs Ht].
  destruct (outcome (body s)) as [a|e]; simpl.
  - auto.
  - destruct (Hh e (final (body s))) as [Hs' Ht'].
    split; [congruence | apply Forall_app; auto].
Qed.

Lemma silent_get_files : silent get_files.
Proof. intros s. split; [reflexivity | constructor]. Qed.

#[local] Hint Resolve silent_ret silent_raise silent_lift silent_log
  silent_get_files : silent.

Ltac silence :=
  repeat first
    [ apply silent_bind; [| intros ?]
    | apply silent_try; [| intros ?]
    | apply silent_emit; solve [auto with silent]
    | solve [auto with silent]
    | match goal with
      | |- silent (match ?x with _ => _ end) => destruct x
      | |- silent (if ?x then _ else _) => destruct x
      | |- silent (let '(_, _) := ?x in _) => destruct x
      end ].

Section Silent.
Variable lib : pylib.
Variable w : world.

Lemma silent_fetch_jobs b : silent (fetch_jobs lib w b).
Proof. unfold fetch_jobs, requests_get, raise_for_status, response_json. silence. Qed.

Lemma silent_load_seen_ids path : silent (load_seen_ids lib w path).
Proof. unfold load_seen_ids, read_json. silence. Qed.

Lemma silent_fetch_boards boards : forall acc pc, silent (fetch_boards lib w boards acc pc).
Proof.
  induction boards as [|b rest IH]; intros acc pc; simpl.
  - apply silent_ret.
  - apply silent_bind; [apply silent_log | intros _].
    apply silent_bind; [apply silent_fetch_jobs | intros jobs].
    destruct jobs; apply IH.
Qed.
End Silent.
Section Runs.
Variable lib : pylib.
Variable w : world.

Lemma sorted_raises l e : sorted l = Raise e -> e = TypeError.
Proof.
  unfold sorted. destruct (mapM as_str l); [discriminate |].
  destruct (mapM as_num l); [discriminate |].
  destruct l as [|a [|b l']]; congruence.
Qed.

(** What one call of [save_seen_ids] does, case by case. *)
Lemma save_run ids path s :
  save_seen_ids w ids path s =
  match sorted (elements ids) with
  | Raise e => Run [] s (Raise e)
  | Ok items =>
      let text := Json.dumps_ids items in
      match disk w path with
      | WriteOk =>
          Run [EvOpenWrite path true; EvWrite path text true]
              (State (<[path := text]> (<[path := ""]> (files s))) (posted s)) (Ok tt)
      | OpenFails =>
          Run [EvOpenWrite path false; EvLog ERROR (LogSaveFailed path)] s (Ok tt)
      | WriteFails n =>
          Run [EvOpenWrite path true; EvWrite path (String.substring 0 n text) false;
               EvLog ERROR (LogSaveFailed path)]
              (State (<[path := String.substring 0 n text]> (<[path := ""]> (files s)))
                     (posted s)) (Ok tt)
      end
  end.
Proof.
  unfold save_seen_ids, write_text. rewrite run_try, run_bind.
  destruct (sorted (elements ids)) as [items|e] eqn:Hs; simpl.
  - destruct (disk w path); reflexivity.
  - apply sorted_raises in Hs. subst e. reflexivity.
Qed.

Lemma save_no_post ids path s :
  Forall (fun ev => is_post ev = false) (trace (save_seen_ids w ids path s)).
Proof.
  rewrite save_run. destruct (sorted (elements ids)); simpl; [| constructor].
  destruct (disk w path); simpl; repeat (constructor; [reflexivity |]); constructor.
Qed.

Lemma save_posted ids path s :
  posted (final (save_seen_ids w ids path s)) = posted s.
Proof.
  rewrite save_run. destruct (sorted (elements ids)); simpl; [| reflexivity].
  destruct (disk w path); reflexivity.
Qed.

Lemma save_replay ids path s :
  files (final (save_seen_ids w ids path s)) =
  replay (trace (save_seen_ids w ids path s)) (files s).
Proof.
  rewrite save_run. destruct (sorted (elements ids)); simpl; [| reflexivity].
  destruct (disk w path); reflexivity.
Qed.

Lemma save_completes ids path s :
  outcome (save_seen_ids w ids path s) = Ok tt ->
  ∃ ev, last (trace (save_seen_ids w ids path s)) = Some ev ∧ save_done path ev.
Proof.
  rewrite save_run. destruct (sorted (elements ids)); simpl; [| discriminate].
  intros _. destruct (disk w path); simpl; eexists; (split; [reflexivity |]);
    unfold save_done; eauto.
Qed.

Lemma run_log_then {A} lvl m (k : M A) s :
  (log lvl m ;; k) s = Run (EvLog lvl m :: trace (k s)) (final (k s)) (outcome (k s)).
Proof. reflexivity. Qed.

(** [main], phase by phase. *)
Lemma main_run boards :
  let s0 := State (fs0 w) 0 in
  let rl := load_seen_ids lib w JOBS_FILE s0 in
  let rf := fetch_boards lib w boards [] [] s0 in
  main lib w boards =
  if String.eqb (env_token w) "" || String.eqb (env_chat_id w) "" then
    Run [] s0 (Raise SystemExit)
  else
    match outcome rl with
    | Raise e => Run (EvLog INFO LogStarting :: trace rl) s0 (Raise e)
    | Ok (seen_ids, is_first_run) =>
        match outcome rf with
        | Raise e => Run (EvLog INFO LogStarting :: trace rl ++ trace rf) s0 (Raise e)
        | Ok (all_jobs, platforms_checked) =>
            let rest :=
              match all_jobs with
              | [] => log WARNING LogNoJobs
              | _ => if is_first_run then first_run_part w all_jobs platforms_checked
                     else steady_part lib w seen_ids all_jobs
              end s0 in
            Run (EvLog INFO LogStarting :: trace rl ++ trace rf ++ trace rest)
                (final rest) (outcome rest)
        end
    end.
Proof.
  intros s0 rl rf. unfold main, main_on. fold s0.
  destruct (String.eqb (env_token w) "" || String.eqb (env_chat_id w) ""); [reflexivity |].
  rewrite run_log_then, run_bind.
  destruct (silent_load_seen_ids lib w JOBS_FILE s0) as [Hl _].
  fold rl in Hl |- *. clearbody rl.
  destruct rl as [tl sl [[seen_ids is_first_run]|e]]; cbn [outcome final trace] in *;
    subst sl; [| reflexivity].
  rewrite run_bind.
  destruct (silent_fetch_boards lib w boards [] [] s0) as [Hf _].
  fold rf in Hf |- *. clearbody rf.
  destruct rf as [tf sf [[all_jobs platforms_checked]|e]]; cbn [outcome final trace] in *;
    subst sf; [| reflexivity].
  destruct all_jobs as [|j all_jobs]; [reflexivity |].
  destruct is_first_run; reflexivity.
Qed.

End Runs.

(** ** Sets of ids *)

Lemma mapM_as_str l :
  all_strs l → mapM as_str l = Some (omap as_str l) ∧ l = AStr <$> omap as_str l.
Proof.
  induction l as [|a l IH]; intros Hl; [done |].
  destruct (Hl a) as [s ->]; [left |].
  destruct IH as [IH1 IH2]; [intros b Hb; apply Hl; by right |].
  cbn. rewrite IH1. cbn. split; [done | by rewrite <- IH2].
Qed.

Lemma sorted_strs l :
  all_strs l → sorted l = Ok (AStr <$> merge_sort String.le (omap as_str l)).
Proof. intros Hl. unfold sorted. by destruct (mapM_as_str l Hl) as [-> _]. Qed.

Lemma elem_of_sorted_strs l a :
  all_strs l → a ∈ AStr <$> merge_sort String.le (omap as_str l) ↔ a ∈ l.
Proof.
  intros Hl. destruct (mapM_as_str l Hl) as [_ Heq].
  rewrite Heq at 2. rewrite !list_elem_of_fmap.
  by setoid_rewrite (merge_sort_Permutation String.le (omap as_str l)).
Qed.

Lemma ids_of_strs all_jobs a : a ∈ ids_of all_jobs → ∃ s, a = AStr s.
Proof.
  unfold ids_of. rewrite elem_of_list_to_set, list_elem_of_fmap.
  intros (j & -> & _). eauto.
Qed.

Lemma elem_of_ids_of all_jobs key :
  AStr key ∈ ids_of all_jobs ↔ ∃ j, j ∈ all_jobs ∧ id j = key.
Proof.
  unfold ids_of. rewrite elem_of_list_to_set, list_elem_of_fmap. split.
  - intros (j & Heq & Hj). exists j. split; [done | congruence].
  - intros (j & Hj & <-). eauto.
Qed.

Lemma updated_ids_current (seen_ids current_ids : gset atom) :
  updated_ids seen_ids current_ids = current_ids.
Proof.
  unfold updated_ids, new_ids, removed_ids. apply set_eq. intros a.
  rewrite elem_of_difference, elem_of_union, !elem_of_difference.
  destruct (decide (a ∈ seen_ids)); destruct (decide (a ∈ current_ids)); tauto.
Qed.

Lemma new_removed_disjoint (seen_ids current_ids : gset atom) :
  new_ids seen_ids current_ids ∩ removed_ids seen_ids current_ids = ∅.
Proof.
  unfold new_ids, removed_ids. apply set_eq. intros a.
  rewrite elem_of_intersection, !elem_of_difference, elem_of_empty. tauto.
Qed.

Lemma all_strs_elements (X : gset atom) all_jobs :
  X ⊆ ids_of all_jobs → all_strs (elements X).
Proof. intros HX a Ha. apply (ids_of_strs all_jobs), HX. by apply elem_of_elements. Qed.

(** The list [save_seen_ids] writes for a set of job ids. *)
Lemma sorted_subset_ids (X : gset atom) all_jobs :
  X ⊆ ids_of all_jobs →
  ∃ items, sorted (elements X) = Ok items ∧ ∀ a, a ∈ items ↔ a ∈ X.
Proof.
  intros HX. pose proof (all_strs_elements X all_jobs HX) as Hs.
  eexists. split; [by apply sorted_strs |].
  intros a. rewrite elem_of_sorted_strs by done. apply elem_of_elements.
Qed.

Section Claims.
Variable lib : pylib.
Variable w : world.

#[local] Abbreviation s0 := (State (fs0 w) 0).

(** *** Sending leaves the files alone *)

Lemma send_attempts_files attempts u chat_id text s :
  files (final (send_attempts w attempts u chat_id text s)) = files s.
Proof.
  revert s. induction attempts as [|attempt rest IH]; intros s; [reflexivity |].
  cbn [send_attempts]. rewrite run_bind. cbn [next_post outcome final trace].
  rewrite run_bind. cbn [emit outcome final trace].
  destruct (http_post w (posted s)); [reflexivity |].
  destruct (attempt =? 0)%nat; [| reflexivity].
  rewrite run_log_then. cbn [final]. rewrite run_bind. cbn [emit outcome final trace].
  by rewrite IH.
Qed.

Lemma notify_files job_by_id a s :
  files (final (notify lib w job_by_id a s)) = files s.
Proof.
  unfold notify. destruct a as [| |key]; try reflexivity.
  destruct (job_by_id !! key) as [j|]; [| reflexivity].
  rewrite run_bind. destruct (format_new_job_message lib j) as [message|e]; [| reflexivity].
  cbn [lift mret M_ret outcome final trace]. rewrite run_bind.
  unfold send_telegram_message.
  match goal with |- context [send_attempts w ?l ?u ?c ?m s] =>
    pose proof (send_attempts_files l u c m s) as Hs;
    destruct (send_attempts w l u c m s) as [t s' [[|]|e]]
  end;
    cbn [outcome final trace] in *; done.
Qed.

Lemma for_each_files (body : atom → M unit) order :
  (∀ a s, files (final (body a s)) = files s) →
  ∀ s, files (final (for_each order body s)) = files s.
Proof.
  intros Hb. induction order as [|a rest IH]; intros s; [reflexivity |].
  cbn [for_each]. rewrite run_bind. pose proof (Hb a s) as Ha.
  destruct (body a s) as [t s' [[]|e]]; cbn [outcome final trace] in *; [| done].
  by rewrite IH.
Qed.

Lemma alerts_files seen_ids all_jobs s :
  files (final (alerts_part lib w seen_ids all_jobs s)) = files s.
Proof.
  unfold alerts_part. destruct (decide _); [reflexivity |].
  rewrite run_log_then. cbn [final]. rewrite run_bind.
  destruct (sorted _) as [order|e]; [| reflexivity].
  cbn [lift mret M_ret outcome final trace].
  apply for_each_files, notify_files.
Qed.

Lemma steady_files seen_ids all_jobs s :
  files (final (steady_part lib w seen_ids all_jobs s)) =
  files (final (save_seen_ids w (updated_ids seen_ids (ids_of all_jobs)) JOBS_FILE s)).
Proof.
  unfold steady_part. rewrite run_bind.
  destruct (save_seen_ids _ _ _ s) as [t s1 [[]|e]]; cbn [outcome final trace]; [| done].
  rewrite run_bind.
  assert (∀ m : M unit, (∀ s, final (m s) = s) →
          files (final ((m ≫= λ _, alerts_part lib w seen_ids all_jobs ;;
                                  log INFO LogRunComplete) s1)) = files s1) as Haux.
  { intros m Hm. rewrite run_bind. rewrite Hm.
    destruct (outcome (m s1)); cbn [final]; [| done].
    rewrite run_bind. pose proof (alerts_files seen_ids all_jobs s1) as Ha.
    destruct (alerts_part _ _ _ _ s1) as [t' s2 [[]|e]]; cbn [outcome final trace] in *; done. }
  destruct (decide _).
  - apply (Haux (mret tt)). done.
  - apply (Haux (log INFO _)). done.
Qed.

(** *** Writing the ids of the fetched jobs *)

Lemma save_ids_ok (X : gset atom) all_jobs s :
  X ⊆ ids_of all_jobs →
  ∃ items, sorted (elements X) = Ok items ∧ (∀ a, a ∈ items ↔ a ∈ X) ∧
    outcome (save_seen_ids w X JOBS_FILE s) = Ok tt ∧
    (disk w JOBS_FILE = WriteOk →
     files (final (save_seen_ids w X JOBS_FILE s)) !! JOBS_FILE
       = Some (Json.dumps_ids items)).
Proof.
  intros HX. destruct (sorted_subset_ids X all_jobs HX) as (items & Hs & Hi).
  exists items. rewrite save_run, Hs. cbn zeta. split; [done |]. split; [done |].
  split.
  - by destruct (disk w JOBS_FILE).
  - intros ->. cbn [final files]. apply lookup_insert_eq.
Qed.


(** *** The claims about a run *)

(** C3. A run whose fetch brings no posting from any board writes nothing,
    sends nothing, and leaves every file, the snapshot among them, as it
    was. *)
Theorem empty_fetch_touches_nothing boards platforms_checked :
  outcome (fetch_boards lib w boards [] [] s0) = Ok ([], platforms_checked) →
  files (final (main lib w boards)) = fs0 w ∧
  files (final (main lib w boards)) !! JOBS_FILE = fs0 w !! JOBS_FILE ∧
  Forall quiet (trace (main lib w boards)).
Proof.
  intros Hf. rewrite main_run. cbv zeta.
  destruct (silent_load_seen_ids lib w JOBS_FILE s0) as [_ Hlq].
  destruct (silent_fetch_boards lib w boards [] [] s0) as [_ Hfq].
  destruct (_ || _); [by repeat split |].
  destruct (outcome (load_seen_ids lib w JOBS_FILE s0)) as [[seen_ids is_first_run]|e];
    cbn [final trace files].
  - rewrite Hf. cbn [final trace files log emit].
    repeat split; try done.
    constructor; [apply quiet_log |].
    rewrite !Forall_app. repeat split; try done.
    constructor; [apply quiet_log | constructor].
  - repeat split; try done. constructor; [apply quiet_log | done].
Qed.

(** C2. On a first run (no snapshot file) whose fetch brings at least one
    posting, the run makes one call of [save_seen_ids], with exactly the ids
    of the fetched postings, and sends nothing; when the disk takes the
    write, the snapshot file holds exactly those ids afterwards. *)
Theorem first_run_records_silently boards seen_ids all_jobs platforms_checked :
  env_token w ≠ "" → env_chat_id w ≠ "" →
  outcome (load_seen_ids lib w JOBS_FILE s0) = Ok (seen_ids, true) →
  outcome (fetch_boards lib w boards [] [] s0) = Ok (all_jobs, platforms_checked) →
  all_jobs ≠ [] →
  ∃ items,
    sorted (elements (ids_of all_jobs)) = Ok items ∧
    (∀ a, a ∈ items ↔ a ∈ ids_of all_jobs) ∧
    trace (main lib w boards) =
      EvLog INFO LogStarting ::
      trace (load_seen_ids lib w JOBS_FILE s0) ++
      trace (fetch_boards lib w boards [] [] s0) ++
      trace (save_seen_ids w (ids_of all_jobs) JOBS_FILE s0) ++
      [EvLog INFO (LogFirstRun (size (ids_of all_jobs)) (length platforms_checked))] ∧
    Forall (λ ev, is_post ev = false) (trace (main lib w boards)) ∧
    outcome (main lib w boards) = Ok tt ∧
    (disk w JOBS_FILE = WriteOk →
     files (final (main lib w boards)) !! JOBS_FILE = Some (Json.dumps_ids items)).
Proof.
  intros Htok Hchat Hl Hf Hjobs.
  destruct (save_ids_ok (ids_of all_jobs) all_jobs s0) as (items & Hs & Hi & Hok & Hw);
    [done |].
  exists items. split; [done |]. split; [done |].
  rewrite main_run. cbv zeta.
  apply String.eqb_neq in Htok, Hchat. rewrite Htok, Hchat. cbn [orb].
  rewrite Hl, Hf. cbn [outcome trace final].
  destruct all_jobs as [|j all_jobs]; [done |].
  unfold first_run_part. rewrite run_bind, Hok. cbn [trace final outcome log emit app].
  split; [done |].
  split; [| split; [done | exact Hw]].
  constructor; [done |].
  destruct (silent_load_seen_ids lib w JOBS_FILE s0) as [_ Hlq].
  destruct (silent_fetch_boards lib w boards [] [] s0) as [_ Hfq].
  rewrite !Forall_app. repeat split.
  - eapply Forall_impl; [exact Hlq |]. by intros ev [? _].
  - eapply Forall_impl; [exact Hfq |]. by intros ev [? _].
  - apply save_no_post.
  - by constructor.
Qed.

Lemma creds_set :
  env_token w ≠ "" → env_chat_id w ≠ "" →
  String.eqb (env_token w) "" || String.eqb (env_chat_id w) "" = false.
Proof. intros Ht Hc. apply String.eqb_neq in Ht, Hc. by rewrite Ht, Hc. Qed.

(** A steady-state run that fetched jobs: its trace, final files and
    outcome are those of [steady_part] after the prelude. *)
Lemma main_steady boards seen_ids all_jobs platforms_checked :
  env_token w ≠ "" → env_chat_id w ≠ "" →
  outcome (load_seen_ids lib w JOBS_FILE s0) = Ok (seen_ids, false) →
  outcome (fetch_boards lib w boards [] [] s0) = Ok (all_jobs, platforms_checked) →
  all_jobs ≠ [] →
  main lib w boards =
  Run (EvLog INFO LogStarting ::
       trace (load_seen_ids lib w JOBS_FILE s0) ++
       trace (fetch_boards lib w boards [] [] s0) ++
       trace (steady_part lib w seen_ids all_jobs s0))
      (final (steady_part lib w seen_ids all_jobs s0))
      (outcome (steady_part lib w seen_ids all_jobs s0)).
Proof.
  intros Ht Hc Hl Hf Hj. rewrite main_run. cbv zeta.
  rewrite (creds_set Ht Hc), Hl, Hf. by destruct all_jobs.
Qed.

(** C5. The set handed to [save_seen_ids] in a steady-state run,
    [(seen | new) - removed], is the set of current ids whatever the two
    sets are; so after a steady-state run whose write succeeds the snapshot
    file lists exactly the ids of the fetch of that run. *)
Theorem snapshot_is_latest_fetch :
  (∀ seen_ids current_ids : gset atom,
     (seen_ids ∪ (current_ids ∖ seen_ids)) ∖ (seen_ids ∖ current_ids) = current_ids ∧
     updated_ids seen_ids current_ids = current_ids) ∧
  (∀ boards seen_ids all_jobs platforms_checked,
     env_token w ≠ "" → env_chat_id w ≠ "" →
     outcome (load_seen_ids lib w JOBS_FILE s0) = Ok (seen_ids, false) →
     outcome (fetch_boards lib w boards [] [] s0) = Ok (all_jobs, platforms_checked) →
     all_jobs ≠ [] →
     disk w JOBS_FILE = WriteOk →
     ∃ items,
       sorted (elements (ids_of all_jobs)) = Ok items ∧
       (∀ a, a ∈ items ↔ a ∈ ids_of all_jobs) ∧
       files (final (main lib w boards)) !! JOBS_FILE = Some (Json.dumps_ids items)).
Proof.
  split.
  - intros seen_ids current_ids. split; apply updated_ids_current.
  - intros boards seen_ids all_jobs pc Ht Hc Hl Hf Hj Hd.
    destruct (save_ids_ok (ids_of all_jobs) all_jobs s0) as (items & Hs & Hi & _ & Hw);
      [done |].
    exists items. split; [done |]. split; [done |].
    rewrite (main_steady boards seen_ids all_jobs pc) by done.
    cbn [final]. rewrite steady_files, updated_ids_current. by apply Hw.
Qed.

(** *** Order of the snapshot write and the sends *)

Lemma split_at_post (ta tb t1 t2 : list event) ev :
  ta ++ tb = t1 ++ ev :: t2 →
  is_post ev = true →
  Forall (λ e, is_post e = false) ta →
  ∃ mid, t1 = ta ++ mid ∧ tb = mid ++ ev :: t2.
Proof.
  revert t1. induction ta as [|a ta IH]; intros t1 Heq Hev Hta.
  - exists t1. done.
  - apply Forall_cons in Hta as [Ha Hta]. destruct t1 as [|b t1]; simplify_eq/=.
    + congruence.
    + destruct (IH t1) as (mid & -> & ->); [done.. |]. by exists mid.
Qed.

Lemma no_post_in (t t1 t2 : list event) ev :
  Forall (λ e, is_post e = false) t → is_post ev = true → t ≠ t1 ++ ev :: t2.
Proof.
  intros Ht Hev ->. apply Forall_app in Ht as [_ Ht].
  apply Forall_cons in Ht as [Ht _]. congruence.
Qed.

Lemma quiet_no_post (t : list event) :
  Forall quiet t → Forall (λ e, is_post e = false) t.
Proof. intros Ht. eapply Forall_impl; [exact Ht |]. by intros ev [? _]. Qed.

(** C1. Whenever a run posts to the messaging endpoint, the run is a
    steady-state one, and the call of [save_seen_ids] on the updated id set
    has come to its end before that POST: nothing was posted before or during
    the call, the call returned normally, and its last event is the finished
    write or the logged failure. *)
Theorem write_before_notify boards t1 attempt u chat_id text ok t2 :
  trace (main lib w boards) = t1 ++ EvPost attempt u chat_id text ok :: t2 →
  ∃ seen_ids all_jobs platforms_checked mid,
    outcome (load_seen_ids lib w JOBS_FILE s0) = Ok (seen_ids, false) ∧
    outcome (fetch_boards lib w boards [] [] s0) = Ok (all_jobs, platforms_checked) ∧
    let saving := save_seen_ids w (updated_ids seen_ids (ids_of all_jobs)) JOBS_FILE s0 in
    let before := EvLog INFO LogStarting ::
                  trace (load_seen_ids lib w JOBS_FILE s0) ++
                  trace (fetch_boards lib w boards [] [] s0) in
    t1 = before ++ trace saving ++ mid ∧
    Forall (λ ev, is_post ev = false) (before ++ trace saving) ∧
    outcome saving = Ok tt ∧
    ∃ ev, last (trace saving) = Some ev ∧ save_done JOBS_FILE ev.
Proof.
  intros Htr.
  destruct (silent_load_seen_ids lib w JOBS_FILE s0) as [_ Hlq%quiet_no_post].
  destruct (silent_fetch_boards lib w boards [] [] s0) as [_ Hfq%quiet_no_post].
  rewrite main_run in Htr. cbv zeta in Htr.
  destruct (_ || _).
  { by destruct t1. }
  destruct (outcome (load_seen_ids lib w JOBS_FILE s0))
    as [[seen_ids is_first_run]|e] eqn:Hl; cbn [trace] in Htr.
  2: { exfalso. eapply no_post_in; [| | exact Htr]; [by constructor | done]. }
  destruct (outcome (fetch_boards lib w boards [] [] s0))
    as [[all_jobs pc]|e] eqn:Hf; cbn [trace] in Htr.
  2: { exfalso. eapply no_post_in; [| | exact Htr]; [| done].
       constructor; [done |]. by apply Forall_app. }
  destruct all_jobs as [|j all_jobs].
  { exfalso. eapply no_post_in; [| | exact Htr]; [| done].
    constructor; [done |]. rewrite !Forall_app. repeat split; try done.
    by constructor. }
  destruct is_first_run.
  { exfalso. eapply no_post_in; [| | exact Htr]; [| done].
    constructor; [done |]. rewrite !Forall_app. repeat split; try done.
    unfold first_run_part. rewrite run_bind.
    pose proof (save_no_post w (ids_of (j :: all_jobs)) JOBS_FILE s0) as Hs.
    destruct (outcome (save_seen_ids _ _ _ _)); cbn [trace]; [| done].
    apply Forall_app. split; [done |]. by constructor. }
  exists seen_ids, (j :: all_jobs), pc.
  set (saving := save_seen_ids w (updated_ids seen_ids (ids_of (j :: all_jobs))) JOBS_FILE s0).
  pose proof (save_no_post w (updated_ids seen_ids (ids_of (j :: all_jobs))) JOBS_FILE s0)
    as Hs. fold saving in Hs.
  assert (Forall (λ ev, is_post ev = false)
            ((EvLog INFO LogStarting :: trace (load_seen_ids lib w JOBS_FILE s0) ++
              trace (fetch_boards lib w boards [] [] s0)) ++ trace saving)) as Hbefore.
  { apply Forall_app. split; [| done]. constructor; [done |]. by apply Forall_app. }
  unfold steady_part in Htr. rewrite run_bind in Htr. fold saving in Htr.
  destruct (outcome saving) as [[]|e] eqn:Hok; cbn [trace] in Htr.
  2: { exfalso. apply (no_post_in _ t1 t2 (EvPost attempt u chat_id text ok) Hbefore eq_refl).
       rewrite <- Htr. cbn [app]. by rewrite <- !app_assoc. }
  match type of Htr with
  | _ :: _ ++ _ ++ _ ++ ?rest = _ =>
      destruct (split_at_post
        ((EvLog INFO LogStarting :: trace (load_seen_ids lib w JOBS_FILE s0) ++
          trace (fetch_boards lib w boards [] [] s0)) ++ trace saving)
        rest t1 t2 (EvPost attempt u chat_id text ok)) as (mid & Ht1 & _); [| done | done |]
  end.
  { rewrite <- Htr. cbn [app]. by rewrite <- !app_assoc. }
  exists mid. split; [done |]. split; [done |]. cbv zeta.
  split; [by rewrite Ht1, <- app_assoc |].
  split; [done |]. split; [done |].
  by apply save_completes.
Qed.

(** *** The notifications of a steady-state run *)

Lemma sends_app (ta tb : list event) : sends (ta ++ tb) = sends ta ++ sends tb.
Proof. apply omap_app. Qed.

Lemma sends_no_post (t : list event) :
  Forall (λ e, is_post e = false) t → sends t = [].
Proof.
  induction 1 as [|ev t Hev _ IH]; [done |].
  unfold sends in *. cbn. rewrite IH. by destruct ev as [| | | |[|n]|].
Qed.

Lemma send_telegram_message_once text token chat_id s :
  sends (trace (send_telegram_message w text token chat_id s)) = [text] ∧
  ∃ success, outcome (send_telegram_message w text token chat_id s) = Ok success.
Proof.
  unfold send_telegram_message. cbv zeta. cbn [seq send_attempts].
  rewrite run_bind. cbn [next_post outcome final trace]. rewrite run_bind.
  cbn [emit outcome final trace].
  destruct (http_post w (posted s)); [by eauto |].
  cbn [Nat.eqb]. rewrite run_log_then. cbn [trace outcome]. rewrite run_bind.
  cbn [emit outcome final trace]. rewrite run_bind.
  cbn [next_post outcome final trace]. rewrite run_bind.
  cbn [emit outcome final trace posted].
  destruct (http_post w (S (posted s))); by eauto.
Qed.

Lemma notify_ok all_jobs key message s :
  message_of lib all_jobs key = Ok message →
  sends (trace (notify lib w (index_by_id all_jobs) (AStr key) s)) = [message] ∧
  outcome (notify lib w (index_by_id all_jobs) (AStr key) s) = Ok tt.
Proof.
  unfold message_of, notify. destruct (index_by_id all_jobs !! key) as [j|]; [| done].
  intros ->. rewrite run_bind. cbn [lift mret M_ret outcome final trace app].
  rewrite run_bind.
  destruct (send_telegram_message_once message (env_token w) (env_chat_id w) s)
    as (Hs & success & Hok).
  rewrite Hok. cbn [trace outcome]. rewrite sends_app, Hs.
  by destruct success.
Qed.

Lemma for_each_notify_ok all_jobs order :
  (∀ key, key ∈ order → ∃ message, message_of lib all_jobs key = Ok message) →
  ∀ s,
    Forall2 (λ key message, message_of lib all_jobs key = Ok message) order
      (sends (trace (for_each (AStr <$> order) (notify lib w (index_by_id all_jobs)) s))) ∧
    outcome (for_each (AStr <$> order) (notify lib w (index_by_id all_jobs)) s) = Ok tt.
Proof.
  induction order as [|key order IH]; intros Hm s.
  - split; [constructor | done].
  - destruct (Hm key) as [message Hkey]; [left |].
    cbn [fmap list_fmap for_each]. rewrite run_bind.
    destruct (notify_ok all_jobs key message s Hkey) as [Hs Hok].
    rewrite Hok. cbn [trace outcome]. rewrite sends_app, Hs.
    destruct (IH (λ k Hk, Hm k (list_elem_of_further _ _ _ Hk))
                 (final (notify lib w (index_by_id all_jobs) (AStr key) s))) as [IH1 IH2].
    split; [by constructor | done].
Qed.

(** In a steady-state run that fetched jobs and in which the message of
    every new posting can be built, the notifications attempted are exactly
    the messages of the ids in [new_ids = current - seen], one each, in
    ascending order of id, and the run ends normally. *)
Lemma notifications_are_sorted_new_ids boards seen_ids all_jobs platforms_checked :
  env_token w ≠ "" → env_chat_id w ≠ "" →
  outcome (load_seen_ids lib w JOBS_FILE s0) = Ok (seen_ids, false) →
  outcome (fetch_boards lib w boards [] [] s0) = Ok (all_jobs, platforms_checked) →
  all_jobs ≠ [] →
  (∀ key, AStr key ∈ new_ids seen_ids (ids_of all_jobs) →
          ∃ message, message_of lib all_jobs key = Ok message) →
  ∃ order,
    (∀ key, key ∈ order ↔ AStr key ∈ new_ids seen_ids (ids_of all_jobs)) ∧
    NoDup order ∧
    StronglySorted String.le order ∧
    Forall2 (λ key message, message_of lib all_jobs key = Ok message) order
      (sends (trace (main lib w boards))) ∧
    outcome (main lib w boards) = Ok tt.
Proof.
  intros Ht Hc Hl Hf Hj Hm.
  set (new := new_ids seen_ids (ids_of all_jobs)) in *.
  assert (new ⊆ ids_of all_jobs) as Hsub.
  { intros a. unfold new, new_ids. rewrite elem_of_difference. tauto. }
  pose proof (all_strs_elements new all_jobs Hsub) as Hstrs.
  destruct (mapM_as_str _ Hstrs) as [_ Hel].
  set (order := merge_sort String.le (omap as_str (elements new))).
  assert (∀ key, key ∈ order ↔ AStr key ∈ new) as Horder.
  { intros key. unfold order. rewrite merge_sort_Permutation.
    rewrite <- elem_of_elements. rewrite Hel at 2. rewrite list_elem_of_fmap. split.
    - eauto.
    - by intros (k & [= ->] & Hk). }
  exists order. split; [done |]. split.
  { unfold order. rewrite merge_sort_Permutation.
    apply (NoDup_fmap_1 AStr). rewrite <- Hel. apply NoDup_elements. }
  split; [apply StronglySorted_merge_sort; apply _ |].
  rewrite (main_steady boards seen_ids all_jobs platforms_checked) by done.
  cbn [trace outcome].
  destruct (silent_load_seen_ids lib w JOBS_FILE s0) as [_ Hlq%quiet_no_post].
  destruct (silent_fetch_boards lib w boards [] [] s0) as [_ Hfq%quiet_no_post].
  change (EvLog INFO LogStarting :: ?t) with ([EvLog INFO LogStarting] ++ t).
  rewrite !sends_app, (sends_no_post _ Hlq), (sends_no_post _ Hfq). cbn [sends omap app].
  unfold steady_part. rewrite run_bind.
  destruct (save_ids_ok (updated_ids seen_ids (ids_of all_jobs)) all_jobs s0)
    as (items & _ & _ & Hok & _); [by rewrite updated_ids_current |].
  rewrite Hok. cbn [trace outcome]. rewrite sends_app.
  rewrite (sends_no_post _ (save_no_post w _ _ _)). cbn [app].
  set (s1 := final (save_seen_ids w _ JOBS_FILE s0)).
  assert (∀ (m : M unit) (k : M unit) s,
            final (m s) = s → outcome (m s) = Ok tt →
            Forall (λ e, is_post e = false) (trace (m s)) →
            sends (trace ((m ;; k) s)) = sends (trace (k s)) ∧
            outcome ((m ;; k) s) = outcome (k s)) as Hskip.
  { intros m k s Hfin Hout Hq. rewrite run_bind, Hout. cbn [trace outcome].
    by rewrite sends_app, (sends_no_post _ Hq), Hfin. }
  assert (sends (trace ((alerts_part lib w seen_ids all_jobs ;; log INFO LogRunComplete) s1))
            = sends (trace (alerts_part lib w seen_ids all_jobs s1)) ∧
          (outcome (alerts_part lib w seen_ids all_jobs s1) = Ok tt →
           outcome ((alerts_part lib w seen_ids all_jobs ;; log INFO LogRunComplete) s1)
             = Ok tt)) as [Htail Htail'].
  { rewrite run_bind.
    destruct (outcome (alerts_part lib w seen_ids all_jobs s1)) as [[]|e];
      cbn [trace outcome]; [| done].
    by rewrite sends_app, app_nil_r. }
  assert (Forall2 (λ key message, message_of lib all_jobs key = Ok message) order
            (sends (trace (alerts_part lib w seen_ids all_jobs s1))) ∧
          outcome (alerts_part lib w seen_ids all_jobs s1) = Ok tt) as [Ha Ha'].
  { unfold alerts_part. fold new. destruct (decide (new = ∅)) as [Hempty|Hne].
    - split; [| done]. cbn. destruct order as [|key order'] eqn:Ho; [constructor |].
      exfalso. assert (AStr key ∈ new) as Hin by (apply Horder; left).
      rewrite Hempty in Hin. by apply elem_of_empty in Hin.
    - rewrite run_log_then. cbn [trace outcome]. rewrite run_bind.
      rewrite (sorted_strs _ Hstrs). fold order.
      cbn [lift mret M_ret outcome final trace app].
      apply for_each_notify_ok. intros key Hkey. apply Hm. by apply Horder. }
  destruct (decide (removed_ids seen_ids (ids_of all_jobs) = ∅)).
  - destruct (Hskip (mret tt) (alerts_part lib w seen_ids all_jobs ;; log INFO LogRunComplete)
                s1) as [-> ->]; [done | done | constructor |].
    rewrite Htail. split; [done | by apply Htail'].
  - destruct (Hskip (log INFO (LogRemoved (size (removed_ids seen_ids (ids_of all_jobs)))))
                (alerts_part lib w seen_ids all_jobs ;; log INFO LogRunComplete)
                s1) as [-> ->]; [done | done | by constructor |].
    rewrite Htail. split; [done | by apply Htail'].
Qed.

(** *** Where the fetched jobs come from *)

Lemma traverse_elem {A B} (f : A → result B) l ys y :
  traverse f l = Ok ys → y ∈ ys → ∃ x, x ∈ l ∧ f x = Ok y.
Proof.
  revert ys. induction l as [|x l IH]; intros ys; cbn [traverse].
  - intros [= <-] Hy. by apply elem_of_nil in Hy.
  - destruct (f x) as [y0|e] eqn:Hx; [| done].
    destruct (traverse f l) as [ys0|e]; [| done].
    intros [= <-] [->|Hy]%elem_of_cons.
    + exists x. split; [left | done].
    + destruct (IH ys0 eq_refl Hy) as (x' & Hx' & Hfx'). exists x'. split; [by right | done].
Qed.

Lemma normalise_job_id raw platform_name j :
  normalise_job lib raw platform_name = Ok j →
  id j = platform_name +:+ ":" +:+ py_str lib (local_id lib raw).
Proof.
  unfold normalise_job. destruct (map_employment_type _); [| done]. by intros [= <-].
Qed.

Lemma fetch_jobs_namespaced b s jobs j :
  outcome (fetch_jobs lib w b s) = Ok jobs → j ∈ jobs → namespaced b (id j).
Proof.
  unfold fetch_jobs. rewrite run_try.
  match goal with |- context [outcome (?body s)] => set (r := body s) end.
  destruct (outcome r) as [jobs0|e] eqn:Hr.
  - intros Heq Hj. rewrite Hr in Heq. injection Heq as ->. revert Hr. unfold r.
    rewrite run_bind.
    destruct (requests_get w (url b) s) as [t1 s1 [[status body]|e1]];
      cbn [outcome final trace]; [| done].
    rewrite run_bind.
    destruct (raise_for_status status s1) as [t2 s2 [[]|e2]];
      cbn [outcome final trace]; [| done].
    rewrite run_bind.
    destruct (response_json body s2) as [t3 s3 [data|e3]];
      cbn [outcome final trace]; [| done].
    rewrite run_bind.
    destruct (get_or data "jobs" (JArr [])) as [raw_jobs|e4];
      cbn [lift mret M_ret raise outcome final trace]; [| done].
    rewrite run_bind.
    destruct (iterate raw_jobs) as [items|e5];
      cbn [lift mret M_ret raise outcome final trace]; [| done].
    destruct (traverse _ _) as [js|e6] eqn:Htr;
      cbn [lift mret M_ret raise outcome final trace]; [| done].
    intros [= ->]. destruct (traverse_elem _ _ _ _ Htr Hj) as (raw & _ & Hraw).
    eexists. by apply normalise_job_id.
  - cbn [outcome].
    destruct e; cbn [outcome log emit mret M_ret mbind M_bind trace final raise];
      try done; intros [= <-] Hj; by apply elem_of_nil in Hj.
Qed.

Lemma fetch_boards_from boards s : ∀ acc pc all_jobs pc' j,
  outcome (fetch_boards lib w boards acc pc s) = Ok (all_jobs, pc') →
  j ∈ all_jobs →
  j ∈ acc ∨ ∃ c jobs, c ∈ boards ∧ outcome (fetch_jobs lib w c s) = Ok jobs ∧ j ∈ jobs.
Proof.
  induction boards as [|b rest IH]; intros acc pc all_jobs pc' j; cbn [fetch_boards].
  - intros [= <- <-] Hj. by left.
  - rewrite run_log_then. cbn [outcome]. rewrite run_bind.
    destruct (silent_fetch_jobs lib w b s) as [Hfin _].
    destruct (outcome (fetch_jobs lib w b s)) as [board_jobs|e] eqn:Hb; [| done].
    cbn [outcome]. rewrite Hfin.
    assert (∀ acc0 pc0,
              outcome (fetch_boards lib w rest acc0 pc0 s) = Ok (all_jobs, pc') →
              j ∈ all_jobs →
              (j ∈ acc0 → j ∈ acc ∨ j ∈ board_jobs) →
              j ∈ acc ∨ ∃ c jobs, c ∈ b :: rest ∧
                outcome (fetch_jobs lib w c s) = Ok jobs ∧ j ∈ jobs) as Hstep.
    { intros acc0 pc0 Hrest Hj Hacc0.
      destruct (IH acc0 pc0 all_jobs pc' j Hrest Hj) as [Hin|(c & jobs & Hc & Hcj & Hjj)].
      - destruct (Hacc0 Hin) as [?|?]; [by left |].
        right. exists b, board_jobs. split; [left | done].
      - right. exists c, jobs. split; [by right | done]. }
    destruct board_jobs as [|j0 board_jobs].
    + intros Hrest Hj. apply (Hstep acc pc Hrest Hj). by left.
    + intros Hrest Hj. apply (Hstep _ _ Hrest Hj). rewrite elem_of_app. tauto.
Qed.

(** C10. In a steady-state run where a configured board's fetch returns
    [[]] while the fetch as a whole brings jobs, the empty-fetch guard does
    not stop the run: every seen id owned by that board is in [removed_ids]
    and is not in the set the run hands to [save_seen_ids], so that a
    successful write leaves it out of the snapshot. *)
Theorem failed_board_ids_are_dropped boards b seen_ids all_jobs platforms_checked key :
  env_token w ≠ "" → env_chat_id w ≠ "" →
  outcome (load_seen_ids lib w JOBS_FILE s0) = Ok (seen_ids, false) →
  outcome (fetch_boards lib w boards [] [] s0) = Ok (all_jobs, platforms_checked) →
  all_jobs ≠ [] →
  b ∈ boards →
  outcome (fetch_jobs lib w b s0) = Ok [] →
  AStr key ∈ seen_ids →
  owned_by boards b key →
  (AStr key ∈ removed_ids seen_ids (ids_of all_jobs)) ∧
  (AStr key ∉ updated_ids seen_ids (ids_of all_jobs)) ∧
  (∃ rest, trace (main lib w boards) =
     (EvLog INFO LogStarting ::
      trace (load_seen_ids lib w JOBS_FILE s0) ++
      trace (fetch_boards lib w boards [] [] s0)) ++
     trace (save_seen_ids w (updated_ids seen_ids (ids_of all_jobs)) JOBS_FILE s0) ++
     rest) ∧
  (disk w JOBS_FILE = WriteOk →
   ∃ items, files (final (main lib w boards)) !! JOBS_FILE = Some (Json.dumps_ids items) ∧
            AStr key ∉ items).
Proof.
  intros Ht Hc Hl Hf Hj Hb Hempty Hseen [_ Hown].
  assert (AStr key ∉ ids_of all_jobs) as Hnot.
  { rewrite elem_of_ids_of. intros (j & Hjin & Hid).
    destruct (fetch_boards_from boards s0 [] [] all_jobs platforms_checked j Hf Hjin)
      as [Hnil|(c & jobs & Hcin & Hcj & Hjj)]; [by apply elem_of_nil in Hnil |].
    assert (c = b) as ->.
    { apply Hown; [done |]. rewrite <- Hid. by eapply fetch_jobs_namespaced. }
    rewrite Hempty in Hcj. injection Hcj as <-. by apply elem_of_nil in Hjj. }
  split; [unfold removed_ids; by apply elem_of_difference |].
  split; [by rewrite updated_ids_current |].
  rewrite (main_steady boards seen_ids all_jobs platforms_checked) by done.
  cbn [trace final]. split.
  - unfold steady_part. rewrite run_bind.
    destruct (outcome (save_seen_ids w _ JOBS_FILE s0)) as [[]|e]; cbn [trace].
    + eexists. cbn [app]. by rewrite <- !app_assoc.
    + exists []. cbn [app]. by rewrite app_nil_r, <- !app_assoc.
  - intros Hd. rewrite steady_files, updated_ids_current.
    destruct (save_ids_ok (ids_of all_jobs) all_jobs s0) as (items & _ & Hi & _ & Hw);
      [done |].
    exists items. split; [by apply Hw |]. by rewrite Hi.
Qed.

(** *** Normalisation *)

(** C9, amended. The id of a normalised job is the board name, a colon and
    the text of the source-local id when that id is truthy; when it is
    missing or falsy ([null], [false], [0], an empty string, list or dict)
    the suffix is the title, an underscore and the publish timestamp, each
    defaulting to the empty string.  The id is a function of the record and
    the board name. *)
Theorem normalised_id raw platform_name j :
  normalise_job lib raw platform_name = Ok j →
  (∀ v, dict_get raw "id" = Some v → truthy v = true →
        id j = platform_name +:+ ":" +:+ py_str lib v) ∧
  ((dict_get raw "id" = None ∨ ∃ v, dict_get raw "id" = Some v ∧ truthy v = false) →
   id j = platform_name +:+ ":" +:+
          (py_str lib (dict_get_or raw "title" (JStr "")) +:+ "_" +:+
           py_str lib (dict_get_or raw "publishedAt" (JStr "")))) ∧
  (∀ j', normalise_job lib raw platform_name = Ok j' → id j' = id j).
Proof.
  intros Hj. pose proof (normalise_job_id raw platform_name j Hj) as Hid.
  unfold local_id in Hid. repeat split.
  - intros v Hv Ht. rewrite Hid, Hv. simpl. by rewrite Ht.
  - intros [Hnone|(v & Hv & Hf)].
    + by rewrite Hid, Hnone.
    + rewrite Hid, Hv. simpl. by rewrite Hf.
  - intros j' Hj'. congruence.
Qed.

(** *** The snapshot file during a write *)

Lemma substring_none (s : string) : String.substring 0 0 s = "".
Proof. by destruct s. Qed.

Lemma substring_all (s : string) : String.substring 0 (String.length s) s = s.
Proof. induction s as [|c s IH]; [done |]. cbn. by rewrite IH. Qed.

(** C6, amended. A call of [save_seen_ids] opens the file for writing, which
    empties it in place, and then writes the new text into it.  Stopped after
    any number [k] of its events, the file is as before the call or holds a
    prefix of the new text (the empty one right after the open); a write the
    disk takes leaves the whole new text. *)
Theorem save_truncates_then_writes ids path s k :
  let saving := save_seen_ids w ids path s in
  (replay (take k (trace saving)) (files s) !! path = files s !! path ∨
   ∃ items n,
     sorted (elements ids) = Ok items ∧
     replay (take k (trace saving)) (files s) !! path
       = Some (String.substring 0 n (Json.dumps_ids items))) ∧
  files (final saving) = replay (trace saving) (files s) ∧
  (∀ items, sorted (elements ids) = Ok items → disk w path = WriteOk →
            files (final saving) !! path = Some (Json.dumps_ids items)).
Proof.
  cbv zeta. split; [| split; [apply save_replay |]].
  - rewrite save_run. destruct (sorted (elements ids)) as [items|e]; cbv zeta.
    2: { left. by destruct k. }
    destruct (disk w path); cbn [trace].
    + destruct k as [|[|k]]; cbn; [by left | |]; right; exists items.
      * exists 0%nat. by rewrite lookup_insert_eq, substring_none.
      * exists (String.length (Json.dumps_ids items)).
        rewrite substring_all. split; [done |]. destruct k; cbn; apply lookup_insert_eq.
    + left. by destruct k as [|[|[|k]]].
    + destruct k as [|[|k]]; cbn; [by left | |]; right; exists items.
      * exists 0%nat. by rewrite lookup_insert_eq, substring_none.
      * exists n. split; [done |]. destruct k as [|[|k]]; cbn; apply lookup_insert_eq.
  - intros items Hs Hd. rewrite save_run, Hs, Hd. cbn. apply lookup_insert_eq.
Qed.

(** *** What the two readers do with what they are given *)

Lemma load_missing path s :
  files s !! path = None →
  load_seen_ids lib w path s = Run [] s (Ok (∅, true)).
Proof.
  intros Hn. unfold load_seen_ids. rewrite run_bind.
  cbn [get_files outcome final trace]. by rewrite Hn.
Qed.

Lemma load_unreadable path bytes s :
  files s !! path = Some bytes →
  readable w path = false ∨ loads lib bytes = Raise JSONDecodeError →
  load_seen_ids lib w path s =
    Run [EvLog WARNING (LogCouldNotRead path)] s (Ok (∅, false)).
Proof.
  intros Hb Hbad. unfold load_seen_ids. rewrite run_bind.
  cbn [get_files outcome final trace]. rewrite Hb. rewrite run_try, run_bind.
  unfold read_json. destruct (readable w path); [| reflexivity].
  destruct Hbad as [? | ->]; [done | reflexivity].
Qed.

Lemma load_not_a_dict path bytes data s :
  files s !! path = Some bytes →
  readable w path = true →
  loads lib bytes = Ok data →
  is_dict data = false →
  outcome (load_seen_ids lib w path s) = Raise AttributeError.
Proof.
  intros Hb Hr Hl Hd. unfold load_seen_ids. rewrite run_bind.
  cbn [get_files outcome final trace]. rewrite Hb. rewrite run_try, run_bind.
  unfold read_json. rewrite Hr, Hl. by destruct data.
Qed.

Lemma fetch_jobs_failure b s :
  http_get w (url b) = GetTimeout ∨ http_get w (url b) = GetFails ∨
  (∃ status body, http_get w (url b) = Response status body ∧
     ((400 <=? status) && (status <? 600) = true ∨ body = None)) →
  ∃ m, fetch_jobs lib w b s = Run [EvGet (url b); EvLog ERROR m] s (Ok []).
Proof.
  intros H. unfold fetch_jobs, requests_get. rewrite run_try, !run_bind.
  cbn [emit outcome final trace].
  destruct H as [-> | [-> | (status & body & -> & H)]]; [by eexists.. |].
  cbn [mret M_ret outcome final trace]. rewrite !run_bind. unfold raise_for_status.
  destruct ((400 <=? status) && (status <? 600)) eqn:Hs; [by eexists |].
  destruct H as [? | ->]; [done | by eexists].
Qed.

Lemma fetch_jobs_not_a_dict b status data s :
  http_get w (url b) = Response status (Some data) →
  (400 <=? status) && (status <? 600) = false →
  is_dict data = false →
  outcome (fetch_jobs lib w b s) = Raise AttributeError.
Proof.
  intros Hg Hs Hd. unfold fetch_jobs, requests_get. rewrite run_try, !run_bind.
  cbn [emit outcome final trace]. rewrite Hg.
  cbn [mret M_ret outcome final trace]. rewrite !run_bind. unfold raise_for_status.
  rewrite Hs. by destruct data.
Qed.

(** *** A run on the snapshot it has just written *)

Lemma set_of_strs (strs : list string) :
  set_of (JArr (JStr <$> strs)) = Ok (list_to_set (AStr <$> strs)).
Proof.
  unfold set_of. cbn [iterate].
  assert (mapM to_atom (JStr <$> strs) = Some (AStr <$> strs)) as ->; [| done].
  induction strs as [|key strs IH]; [done |]. cbn. rewrite IH. done.
Qed.

Lemma load_object path bytes kvs seen s :
  files s !! path = Some bytes →
  readable w path = true →
  loads lib bytes = Ok (JObj kvs) →
  set_of (dict_get_or kvs "ids" (JArr [])) = Ok seen →
  load_seen_ids lib w path s = Run [] s (Ok (seen, false)).
Proof.
  intros Hb Hr Hl Hset. unfold load_seen_ids. rewrite run_bind.
  cbn [get_files outcome final trace]. rewrite Hb. rewrite run_try, run_bind.
  unfold read_json. rewrite Hr, Hl.
  cbn [lift mret M_ret outcome final trace get_or]. rewrite run_bind.
  cbn [lift mret M_ret outcome final trace]. rewrite run_bind, Hset. reflexivity.
Qed.

(** A run that starts from a snapshot file listing exactly the ids of what it
    fetches (the file a run leaves behind, even one that stopped right after
    its write) attempts no notification, provided [json.loads] reads back
    what [json.dump] wrote. *)
Lemma rerun_sends_nothing boards strs all_jobs platforms_checked :
  fs0 w !! JOBS_FILE = Some (Json.dumps_ids (AStr <$> strs)) →
  readable w JOBS_FILE = true →
  loads lib (Json.dumps_ids (AStr <$> strs)) = Ok (JObj [("ids", JArr (JStr <$> strs))]) →
  outcome (fetch_boards lib w boards [] [] s0) = Ok (all_jobs, platforms_checked) →
  (∀ key, key ∈ strs ↔ AStr key ∈ ids_of all_jobs) →
  sends (trace (main lib w boards)) = [].
Proof.
  intros Hfile Hread Hloads Hf Hsame.
  assert (list_to_set (AStr <$> strs) = ids_of all_jobs) as Hset.
  { apply set_eq. intros a.
    rewrite elem_of_list_to_set, list_elem_of_fmap. split.
    - intros (key & -> & Hkey). by apply Hsame.
    - intros Ha. destruct (ids_of_strs all_jobs a Ha) as [key ->].
      exists key. split; [done | by apply Hsame]. }
  assert (load_seen_ids lib w JOBS_FILE s0 = Run [] s0 (Ok (ids_of all_jobs, false))) as Hl.
  { apply (load_object JOBS_FILE (Json.dumps_ids (AStr <$> strs))
             [("ids", JArr (JStr <$> strs))]); [done.. |].
    rewrite <- Hset. exact (set_of_strs strs). }
  rewrite main_run. cbv zeta.
  destruct (_ || _); [done |].
  rewrite Hl, Hf. cbn [outcome trace app].
  destruct (silent_fetch_boards lib w boards [] [] s0) as [_ Hfq%quiet_no_post].
  change (EvLog INFO LogStarting :: ?t) with ([EvLog INFO LogStarting] ++ t).
  rewrite !sends_app, (sends_no_post _ Hfq). cbn [sends omap app].
  destruct all_jobs as [|j all_jobs]; [done |].
  apply sends_no_post. unfold steady_part. rewrite run_bind.
  pose proof (save_no_post w (updated_ids (ids_of (j :: all_jobs)) (ids_of (j :: all_jobs)))
                JOBS_FILE s0) as Hs.
  destruct (outcome (save_seen_ids _ _ _ _)) as [[]|e]; cbn [trace]; [| done].
  apply Forall_app. split; [done |].
  assert (removed_ids (ids_of (j :: all_jobs)) (ids_of (j :: all_jobs)) = ∅) as ->.
  { unfold removed_ids. apply set_eq. intros a.
    rewrite elem_of_difference, elem_of_empty. tauto. }
  assert (∀ s, alerts_part lib w (ids_of (j :: all_jobs)) (j :: all_jobs) s
               = Run [EvLog INFO LogNoNew] s (Ok tt)) as Ha.
  { intros s. unfold alerts_part.
    destruct (decide _) as [|Hne]; [done |]. exfalso. apply Hne.
    unfold new_ids. apply set_eq. intros a.
    rewrite elem_of_difference, elem_of_empty. tauto. }
  destruct (decide (∅ = ∅)) as [_|]; [| done].
  rewrite run_bind. cbn [mret M_ret outcome trace final app].
  rewrite run_bind, Ha. cbn [outcome trace final log emit app].
  by repeat constructor.
Qed.
End Claims.

(** ** The properties on the sample worlds *)

Section Samples.
Import Sample.

(** C4. With a snapshot file that holds the JSON list [[]], a document that
    is not the expected object, [load_seen_ids] does not fall back to
    [(set(), False)]: [data.get] raises AttributeError, which no clause
    catches, and [main] ends with it before fetching anything. *)
Theorem load_seen_ids_raises_on_list_snapshot :
  fs0 list_snapshot_world !! JOBS_FILE = Some "[]" ∧
  loads lib "[]" = Ok (JArr []) ∧
  load_seen_ids lib list_snapshot_world JOBS_FILE (start list_snapshot_world)
    = Run [] (start list_snapshot_world) (Raise AttributeError) ∧
  main lib list_snapshot_world [board_a]
    = Run [EvLog INFO LogStarting] (start list_snapshot_world) (Raise AttributeError).
Proof. repeat split. Qed.

(** C7. With a feed that answers 200 and the JSON list [[]], [fetch_jobs]
    does not return [[]]: [data.get] raises AttributeError, which no clause
    catches. *)
Theorem fetch_jobs_raises_on_list_feed :
  http_get list_feed_world (url board_a) = Response 200 (Some (JArr [])) ∧
  fetch_jobs lib list_feed_world board_a (start list_feed_world)
    = Run [EvGet (url board_a)] (start list_feed_world) (Raise AttributeError) ∧
  outcome (main lib list_feed_world [board_a]) = Raise AttributeError.
Proof. repeat split. Qed.

(** C6 does not hold as it stands: right after the open the snapshot file is empty,
    which is neither the old snapshot nor the new one; and when the disk
    fails five bytes into the write, the call returns with the file cut
    short. *)
Lemma save_is_not_atomic :
  files (start steady_world) !! JOBS_FILE = Some snapshot_a1 ∧
  files (final (save_seen_ids steady_world ids_1_2 JOBS_FILE (start steady_world)))
    !! JOBS_FILE = Some (Json.dumps_ids [AStr "A:1"; AStr "A:2"]) ∧
  replay (take 1 (trace (save_seen_ids steady_world ids_1_2 JOBS_FILE (start steady_world))))
         (files (start steady_world)) !! JOBS_FILE = Some "" ∧
  "" ≠ snapshot_a1 ∧
  "" ≠ Json.dumps_ids [AStr "A:1"; AStr "A:2"] ∧
  files (final (save_seen_ids full_disk_world ids_1_2 JOBS_FILE (start full_disk_world)))
    !! JOBS_FILE = Some (String.substring 0 5 (Json.dumps_ids [AStr "A:1"; AStr "A:2"])) ∧
  String.substring 0 5 (Json.dumps_ids [AStr "A:1"; AStr "A:2"]) ≠ snapshot_a1 ∧
  String.substring 0 5 (Json.dumps_ids [AStr "A:1"; AStr "A:2"])
    ≠ Json.dumps_ids [AStr "A:1"; AStr "A:2"].
Proof. repeat split; (vm_compute; reflexivity) || (vm_compute; discriminate). Qed.

(** C8. Notifications are to be attempted for every id of [new_ids], in
    ascending order.  Here both fetched postings are new, yet none is
    attempted: the first in id order has [null] for a team, [normalise_job]
    keeps the [null] (its default only fills a missing key), building the
    message raises AttributeError, and the run ends there, after the
    snapshot was written.  (With messages that can all be built the order is
    as claimed: [notifications_are_sorted_new_ids].) *)
Theorem null_team_stops_notifications :
  outcome (load_seen_ids lib null_team_world JOBS_FILE (start null_team_world))
    = Ok (∅, false) ∧
  new_ids ∅ (ids_of (fetched null_team_world [board_a])) = ids_1_2 ∧
  message_of lib (fetched null_team_world [board_a]) "A:1" = Raise AttributeError ∧
  sends (trace (main lib null_team_world [board_a])) = [] ∧
  outcome (main lib null_team_world [board_a]) = Raise AttributeError ∧
  files (final (main lib null_team_world [board_a])) !! JOBS_FILE
    = Some (Json.dumps_ids [AStr "A:1"; AStr "A:2"]).
Proof. repeat split; vm_compute; reflexivity. Qed.

(** C9 does not hold as it stands: a record whose id is the number 0 has a
    source-local id, yet its normalised id is made from the title and the
    publish timestamp. *)
Lemma zero_id_is_replaced :
  ∃ j, normalise_job lib zero_id_record "A" = Ok j ∧
       dict_get zero_id_record "id" = Some (JInt 0) ∧
       id j = "A:Engineer_2024-05-01" ∧
       id j ≠ "A:" +:+ py_str lib (JInt 0).
Proof. eexists. repeat split. discriminate. Qed.

(** On the steady sample run the first POST is the seventh event; the six
    before it end with the finished write. *)
Lemma write_before_notify_witness :
  ∃ seen_ids all_jobs platforms_checked mid,
    outcome (load_seen_ids lib steady_world JOBS_FILE (start steady_world))
      = Ok (seen_ids, false) ∧
    outcome (fetch_boards lib steady_world [board_a] [] [] (start steady_world))
      = Ok (all_jobs, platforms_checked) ∧
    let saving := save_seen_ids steady_world (updated_ids seen_ids (ids_of all_jobs))
                    JOBS_FILE (start steady_world) in
    let before := EvLog INFO LogStarting ::
                  trace (load_seen_ids lib steady_world JOBS_FILE (start steady_world)) ++
                  trace (fetch_boards lib steady_world [board_a] [] [] (start steady_world)) in
    take 6 (trace steady_run) = before ++ trace saving ++ mid ∧
    Forall (λ ev, is_post ev = false) (before ++ trace saving) ∧
    outcome saving = Ok tt ∧
    ∃ ev, last (trace saving) = Some ev ∧ save_done JOBS_FILE ev.
Proof.
  apply (write_before_notify lib steady_world [board_a] (take 6 (trace steady_run))
           0 "https://api.telegram.org/bot123:token/sendMessage" "-100" first_text true
           (drop 7 (trace steady_run))).
  vm_compute. reflexivity.
Defined.

(** The first run of the samples: two postings, no snapshot yet. *)
Lemma first_run_records_silently_witness :
  ∃ items,
    sorted (elements (ids_of (fetched first_world [board_a]))) = Ok items ∧
    (∀ a, a ∈ items ↔ a ∈ ids_of (fetched first_world [board_a])) ∧
    trace (main lib first_world [board_a]) =
      EvLog INFO LogStarting ::
      trace (load_seen_ids lib first_world JOBS_FILE (start first_world)) ++
      trace (fetch_boards lib first_world [board_a] [] [] (start first_world)) ++
      trace (save_seen_ids first_world (ids_of (fetched first_world [board_a]))
               JOBS_FILE (start first_world)) ++
      [EvLog INFO (LogFirstRun (size (ids_of (fetched first_world [board_a])))
                               (length ["A"]))] ∧
    Forall (λ ev, is_post ev = false) (trace (main lib first_world [board_a])) ∧
    outcome (main lib first_world [board_a]) = Ok tt ∧
    (disk first_world JOBS_FILE = WriteOk →
     files (final (main lib first_world [board_a])) !! JOBS_FILE
       = Some (Json.dumps_ids items)).
Proof.
  apply (first_run_records_silently lib first_world [board_a] ∅
           (fetched first_world [board_a]) ["A"]).
  - discriminate.
  - discriminate.
  - vm_compute. reflexivity.
  - vm_compute. reflexivity.
  - vm_compute. discriminate.
Defined.

(** Every request times out: the run leaves the snapshot [A:1] alone. *)
Lemma empty_fetch_touches_nothing_witness :
  files (final (main lib down_world [board_a])) = fs0 down_world ∧
  files (final (main lib down_world [board_a])) !! JOBS_FILE = fs0 down_world !! JOBS_FILE ∧
  Forall quiet (trace (main lib down_world [board_a])).
Proof.
  apply (empty_fetch_touches_nothing lib down_world [board_a] []).
  vm_compute. reflexivity.
Defined.

(** Snapshot [A:1], postings 3, 1 and 2 fetched. *)
Lemma snapshot_is_latest_fetch_witness :
  ∃ items,
    sorted (elements (ids_of (fetched steady_world [board_a]))) = Ok items ∧
    (∀ a, a ∈ items ↔ a ∈ ids_of (fetched steady_world [board_a])) ∧
    files (final (main lib steady_world [board_a])) !! JOBS_FILE
      = Some (Json.dumps_ids items).
Proof.
  apply (proj2 (snapshot_is_latest_fetch lib steady_world) [board_a] {[ AStr "A:1" ]}
           (fetched steady_world [board_a]) ["A"]).
  - discriminate.
  - discriminate.
  - vm_compute. reflexivity.
  - vm_compute. reflexivity.
  - vm_compute. discriminate.
  - reflexivity.
Defined.

(** A write the disk takes. *)
Lemma save_truncates_then_writes_witness :
  files (final (save_seen_ids steady_world ids_1_2 JOBS_FILE (start steady_world)))
    !! JOBS_FILE = Some (Json.dumps_ids [AStr "A:1"; AStr "A:2"]).
Proof.
  apply (proj2 (proj2 (save_truncates_then_writes steady_world ids_1_2 JOBS_FILE
                         (start steady_world) 0))).
  - vm_compute. reflexivity.
  - reflexivity.
Defined.

(** Snapshot [A:1], postings 3, 1 and 2 fetched: [A:2] then [A:3] are
    notified. *)
Example notifications_on_steady_world :
  ∃ order,
    (∀ key, key ∈ order ↔
            AStr key ∈ new_ids {[ AStr "A:1" ]} (ids_of (fetched steady_world [board_a]))) ∧
    NoDup order ∧
    StronglySorted String.le order ∧
    Forall2 (λ key message, message_of lib (fetched steady_world [board_a]) key = Ok message)
      order (sends (trace (main lib steady_world [board_a]))) ∧
    outcome (main lib steady_world [board_a]) = Ok tt.
Proof.
  apply (notifications_are_sorted_new_ids lib steady_world [board_a] {[ AStr "A:1" ]}
           (fetched steady_world [board_a]) ["A"]).
  - discriminate.
  - discriminate.
  - vm_compute. reflexivity.
  - vm_compute. reflexivity.
  - vm_compute. discriminate.
  - unfold new_ids. intros key [Hin _]%elem_of_difference.
    apply elem_of_ids_of in Hin as (j & Hj & <-).
    vm_compute in Hj.
    repeat (apply elem_of_cons in Hj as [-> | Hj]; [eexists; vm_compute; reflexivity |]).
    by apply elem_of_nil in Hj.
Defined.

(** The record with id 0. *)
Lemma normalised_id_witness :
  ∃ j,
    normalise_job lib zero_id_record "A" = Ok j ∧
    (∀ v, dict_get zero_id_record "id" = Some v → truthy v = true →
          id j = "A" +:+ ":" +:+ py_str lib v) ∧
    ((dict_get zero_id_record "id" = None ∨
      ∃ v, dict_get zero_id_record "id" = Some v ∧ truthy v = false) →
     id j = "A" +:+ ":" +:+
            (py_str lib (dict_get_or zero_id_record "title" (JStr "")) +:+ "_" +:+
             py_str lib (dict_get_or zero_id_record "publishedAt" (JStr "")))) ∧
    (∀ j', normalise_job lib zero_id_record "A" = Ok j' → id j' = id j).
Proof.
  eexists. split; [reflexivity |].
  apply (normalised_id lib zero_id_record "A"). reflexivity.
Defined.

(** Board B times out while board A answers: [B:7] leaves the snapshot. *)
Lemma failed_board_ids_are_dropped_witness :
  (AStr "B:7" ∈ removed_ids {[ AStr "A:1"; AStr "B:7" ]}
                  (ids_of (fetched half_down_world [board_a; board_b]))) ∧
  (AStr "B:7" ∉ updated_ids {[ AStr "A:1"; AStr "B:7" ]}
                  (ids_of (fetched half_down_world [board_a; board_b]))) ∧
  (∃ rest, trace (main lib half_down_world [board_a; board_b]) =
     (EvLog INFO LogStarting ::
      trace (load_seen_ids lib half_down_world JOBS_FILE (start half_down_world)) ++
      trace (fetch_boards lib half_down_world [board_a; board_b] [] []
               (start half_down_world))) ++
     trace (save_seen_ids half_down_world
              (updated_ids {[ AStr "A:1"; AStr "B:7" ]}
                 (ids_of (fetched half_down_world [board_a; board_b])))
              JOBS_FILE (start half_down_world)) ++
     rest) ∧
  (disk half_down_world JOBS_FILE = WriteOk →
   ∃ items, files (final (main lib half_down_world [board_a; board_b])) !! JOBS_FILE
              = Some (Json.dumps_ids items) ∧
            AStr "B:7" ∉ items).
Proof.
  apply (failed_board_ids_are_dropped lib half_down_world [board_a; board_b] board_b
           {[ AStr "A:1"; AStr "B:7" ]}
           (fetched half_down_world [board_a; board_b]) ["A"] "B:7").
  - discriminate.
  - discriminate.
  - vm_compute. reflexivity.
  - vm_compute. reflexivity.
  - vm_compute. discriminate.
  - right. left.
  - vm_compute. reflexivity.
  - apply elem_of_union_r, elem_of_singleton. reflexivity.
  - split.
    + exists "7". reflexivity.
    + intros c Hc [rest Hrest].
      apply elem_of_cons in Hc as [-> | Hc]; [discriminate Hrest |].
      apply elem_of_cons in Hc as [-> | Hc]; [reflexivity |].
      by apply elem_of_nil in Hc.
Defined.

End Samples.
